(** * Epistemic scoring with labels: a shallow embedding

    Embedding of [monailabel/tasks/scoring/epistemic_labeled.py]
    (class [EpistemicScoringWithLabels]): the orchestrator [__call__]
    (called [score] here), the per-image routine [run_scoring] and the
    reducer [variance_volume].

    Conventions of the embedding:
    - Python [int] is [Z]; a Python [float] is the rational it denotes, or
      NaN ([pyfloat]); infinities are not modelled.
    - a Python [dict] with string keys is a [gmap string _].
    - code that raises returns [Raise e]; code that has effects runs in the
      monad [M]: it threads the [store] (datastore contents, and how often
      the inference task and the wall clock have been consulted) and emits
      the calls it makes to its collaborators as a trace of events.
    - the collaborators (inference task, datastore, numpy/MONAI numerics,
      host) are not part of the file under study; they are records of
      operations, and the numerics a class [Numerics] the development is
      parametric in.  Two instances give it content: volumes of one voxel
      for the concrete runs, and arrays of any shape, with the variance
      metric of section 4.1 of the specification, for the reducer.
    - a thread pool is modelled by one schedule: the submitted tasks run to
      their end one after the other, in submission order. *)

From stdpp Require Import gmap strings list pretty.
From Stdlib Require Import Ascii ZArith QArith Qround Qabs Lia.

Set Default Proof Using "Type".
Local Open Scope Z_scope.

(** ** Python values, exceptions *)

Inductive pyfloat :=
  | FNaN
  | FNum (q : Q).

(** Values kept in the metadata of an image. *)
Inductive pyval :=
  | PNone
  | PBool (b : bool)
  | PInt (n : Z)
  | PFloat (x : pyfloat)
  | PStr (s : string).

(** [v == n] for an [int] n, as Python evaluates it. *)
Definition py_eq_int (v : pyval) (n : Z) : bool :=
  match v with
  | PInt m => m =? n
  | PBool b => (if b then 1 else 0) =? n
  | PFloat (FNum q) => Qeq_bool q (inject_Z n)
  | PFloat FNaN | PNone | PStr _ => false
  end.

Inductive exn :=
  | NameError (name : string)
  | UnboundLocalError (name : string)
  | KeyError (key : string)
  | AttributeError (msg : string)
  | ValueError (msg : string)
  | OtherError (msg : string).

Inductive result (A : Type) :=
  | Ok (a : A)
  | Raise (e : exn).
Arguments Ok {A} a.
Arguments Raise {A} e.

Definition is_raise {A} (r : result A) : bool :=
  match r with Raise _ => true | Ok _ => false end.

(** [int(x)] of a float: truncation toward zero. *)
Definition py_int (q : Q) : Z := Z.quot (Qnum q) (Zpos (Qden q)).

(** Round-half-even to an integer, and [round(x, ndigits)]. *)
Definition round_half_even (q : Q) : Z :=
  let f := Qfloor q in
  match Qcompare (q - inject_Z f) (1 # 2) with
  | Lt => f
  | Gt => f + 1
  | Eq => if Z.even f then f else f + 1
  end.

Definition py_round (q : Q) (ndigits : nat) : Q :=
  let scale := Z.pow 10 (Z.of_nat ndigits) in
  Qmake (round_half_even (q * inject_Z scale)) (Z.to_pos scale).

(** [l[:n]] for an [int] n: a negative n counts from the end. *)
Definition py_slice_to {A} (n : Z) (l : list A) : list A :=
  if n <? 0 then take (Z.to_nat (Z.of_nat (length l) + n)) l
  else take (Z.to_nat n) l.

(** [s.split(",")] *)
Fixpoint split_comma (s : string) : list string :=
  match s with
  | EmptyString => [EmptyString]
  | String c rest =>
      if Ascii.eqb c ","%char then EmptyString :: split_comma rest
      else match split_comma rest with
           | [] => [String c EmptyString]
           | w :: ws => String c w :: ws
           end
  end.

(** ** The store and the monad of effects *)

(** Modelled from the spec: the datastore (section 6, "Datastore"), an
    in-memory one: the unlabeled images in enumeration order, the metadata
    mapping of each image (an image without metadata has the empty mapping)
    and the URI of each image.  [infer_calls] and [clock_reads] count the
    calls made so far to the inference task and to [time.time()]: the
    results of both are read from the oracles below at these indices. *)
Record store := {
  unlabeled : list string;
  image_info : gmap string (gmap string pyval);
  image_uri : string → string;
  infer_calls : nat;
  clock_reads : nat
}.

Record outcome (E A : Type) := {
  res : result A;
  st : store;
  evs : list E
}.
Arguments res {E A} _.
Arguments st {E A} _.
Arguments evs {E A} _.

Definition M (E A : Type) : Type := store → outcome E A.

Definition ret {E A} (a : A) : M E A :=
  λ s, {| res := Ok a; st := s; evs := [] |}.

Definition raise {E A} (e : exn) : M E A :=
  λ s, {| res := Raise e; st := s; evs := [] |}.

(** The outcome [o], after the events [l]. *)
Definition after {E A} (l : list E) (o : outcome E A) : outcome E A :=
  {| res := res o; st := st o; evs := l ++ evs o |}.

Definition bind {E A B} (m : M E A) (k : A → M E B) : M E B :=
  λ s, let o := m s in
       match res o with
       | Ok a => after (evs o) (k a (st o))
       | Raise e => {| res := Raise e; st := st o; evs := evs o |}
       end.

Definition emit {E} (e : E) : M E unit :=
  λ s, {| res := Ok tt; st := s; evs := [e] |}.

Definition lift_result {E A} (r : result A) : M E A :=
  match r with Ok a => ret a | Raise e => raise e end.

Declare Scope M_scope.
Notation "x <- m ;; k" := (bind m (λ x, k))
  (at level 100, m at next level, right associativity) : M_scope.
Notation "m ;; k" := (bind m (λ _, k))
  (at level 100, k at level 200, right associativity) : M_scope.
Delimit Scope M_scope with M.
Bind Scope M_scope with M.
Local Open Scope M_scope.

(** Datastore operations. *)
Definition get_unlabeled_images {E} : M E (list string) :=
  λ s, ret (unlabeled s) s.

Definition get_image_info {E} (image_id : string) : M E (gmap string pyval) :=
  λ s, ret (default ∅ (image_info s !! image_id)) s.

Definition get_image_uri {E} (image_id : string) : M E string :=
  λ s, ret (image_uri s image_id) s.

(** [update_image_info] merges the given keys into the image's metadata,
    the given ones winning. *)
Definition ds_update (image_id : string) (info : gmap string pyval) (s : store) : store :=
  {| unlabeled := unlabeled s;
     image_info := <[image_id := info ∪ default ∅ (image_info s !! image_id)]> (image_info s);
     image_uri := image_uri s;
     infer_calls := infer_calls s;
     clock_reads := clock_reads s |}.

(** The host: the model files with their modification times
    ([os.path.exists], [os.stat(f).st_mtime]), the CPU and CUDA device counts
    and the successive readings of the wall clock [time.time()]. *)
Record host := {
  file_mtime : string → option Q;
  cpu_count : Z;
  cuda_device_count : nat;
  now : nat → Q
}.

(** The store after one more reading of the clock. *)
Definition tick (s : store) : store :=
  {| unlabeled := unlabeled s; image_info := image_info s;
     image_uri := image_uri s; infer_calls := infer_calls s;
     clock_reads := S (clock_reads s) |}.

Definition time_time {E} (h : host) : M E Q :=
  λ s, {| res := Ok (now h (clock_reads s)); st := tick s; evs := [] |}.

(** A name that is bound neither in the function nor at module level. *)
Definition unbound_global {E A} (name : string) : M E A := raise (NameError name).

(** ** The scoring method *)

(** Prediction volumes (numpy arrays) and the numpy / MONAI operations the
    scoring method calls on them: [np.stack] on a non-empty sequence,
    [np.squeeze], [len(a.shape)], the slice [a[:, 1:, ...]], [astype],
    [VarianceMetric(include_background=True, threshold=0.0005,
    spatial_map=True)], [np.expand_dims(a, axis=0)], [float(np.nanmean(a))]
    and [LabelQualityScore(include_background=True, reduction="sum")]. *)
Class Numerics (tensor : Type) := {
  stack_arrays : list tensor → result tensor;
  np_squeeze : tensor → tensor;
  ndim : tensor → nat;
  drop_background : tensor → tensor;
  astype_float32 : tensor → tensor;
  variance_metric : tensor → result tensor;
  expand_dims0 : tensor → tensor;
  nanmean : tensor → pyfloat;
  label_quality_score : tensor → tensor → result pyfloat
}.

Section Scoring.

Context `{Numerics tensor}.

(** [np.stack]: refuses an empty sequence, otherwise stacks (and may refuse
    arrays of different shapes). *)
Definition np_stack (arrays : list tensor) : result tensor :=
  match arrays with
  | [] => Raise (ValueError "need at least one array to stack")
  | _ => stack_arrays arrays
  end.

(** What a call of the inference task returns: a dict (whose values may be
    [None]) or something that is not a dict. *)
Inductive infer_data :=
  | NotDict
  | PyDict (d : gmap string (option tensor)).

(** Modelled from the spec: the inference task (section 6, "Inference
    Task").  [infer_call k uri] is what the k-th call of the task returns
    (or raises) on the image at [uri]: the passes are stochastic. *)
Record InferTask := {
  task_dimension : Z;
  output_label_key : string;
  get_path : option string;
  infer_call : nat → string → result infer_data
}.

Record EpistemicScoringWithLabels := {
  infer_task : InferTask;
  dimension : Z;
  max_samples : Z;
  simulation_size : Z;
  key_output_entropy : string;
  key_output_ts : string
}.

(** [__init__] with its defaults. *)
Definition init (infer_task : InferTask) : EpistemicScoringWithLabels :=
  {| infer_task := infer_task;
     dimension := task_dimension infer_task;
     max_samples := 0;
     simulation_size := 5;
     key_output_entropy := "epistemic_entropy";
     key_output_ts := "epistemic_ts" |}.

(** Events of the per-image routine: the calls of the inference task, the
    log lines and the datastore updates. *)
Inductive task_event :=
  | TInfer (image : string)
  | TLogPred (image_id : string) (i : nat)
  | TLogPredNone (image_id : string) (i : nat)
  | TLogResult (image_id : string) (iters : Z) (entropy : pyfloat) (latency : Q)
  | TUpdateImageInfo (image_id : string) (info : gmap string pyval).

Definition is_update (e : task_event) : bool :=
  match e with TUpdateImageInfo _ _ => true | _ => false end.

(** [datastore.update_image_info(image_id, info)] *)
Definition update_image_info (image_id : string) (info : gmap string pyval) : M task_event unit :=
  λ s, {| res := Ok tt; st := ds_update image_id info s;
          evs := [TUpdateImageInfo image_id info] |}.

(** [self.infer_task(request=request)] *)
Definition call_infer (task : InferTask) (image : string) : M task_event infer_data :=
  λ s, {| res := infer_call task (infer_calls s) image;
          st := {| unlabeled := unlabeled s; image_info := image_info s;
                   image_uri := image_uri s; infer_calls := S (infer_calls s);
                   clock_reads := clock_reads s |};
          evs := [TInfer image] |}.

Definition variance_volume (self : EpistemicScoringWithLabels) (vol_input : tensor) : result tensor :=
  let vol_input := astype_float32 vol_input in
  match variance_metric vol_input with
  | Ok variance =>
      Ok (if dimension self =? 3 then expand_dims0 (expand_dims0 variance) else variance)
  | Raise e => Raise e
  end.

Definition get_label_quality_score (vol_input : option tensor) (vol_label : tensor)
    : result pyfloat :=
  match vol_input with
  | None => Raise (AttributeError "'NoneType' object has no attribute 'astype'")
  | Some vol_input =>
      let vol_input := astype_float32 vol_input in
      let vol_label := astype_float32 vol_label in
      label_quality_score vol_input vol_label
  end.

Definition pyfloat_round (x : pyfloat) (ndigits : nat) : pyfloat :=
  match x with FNaN => FNaN | FNum q => FNum (py_round q ndigits) end.

(** One iteration of the loop of [run_scoring] (lines 142-148): the new
    ensemble and the value of [pred]. *)
Definition scoring_iteration (self : EpistemicScoringWithLabels) (image_id image : string)
    (i : nat) (accum_unl_outputs : list tensor) : M task_event (list tensor * option tensor) :=
  data <- call_infer (infer_task self) image ;;
  pred <- match data with
          | PyDict d =>
              match d !! output_label_key (infer_task self) with
              | Some v => ret v
              | None => raise (KeyError (output_label_key (infer_task self)))
              end
          | NotDict => ret None
          end ;;
  match pred with
  | Some p => emit (TLogPred image_id i) ;; ret (accum_unl_outputs ++ [p], pred)
  | None => emit (TLogPredNone image_id i) ;; ret (accum_unl_outputs, pred)
  end.

(** The loop [for i in range(simulation_size)]; [pred] is [None] here as
    long as the loop variable is unbound. *)
Fixpoint scoring_loop (self : EpistemicScoringWithLabels) (image_id image : string)
    (range : list nat) (accum_unl_outputs : list tensor) (pred : option (option tensor))
    : M task_event (list tensor * option (option tensor)) :=
  match range with
  | [] => ret (accum_unl_outputs, pred)
  | i :: range' =>
      r <- scoring_iteration self image_id image i accum_unl_outputs ;;
      scoring_loop self image_id image range' r.1 (Some r.2)
  end.

(** Lines 150-158 of [run_scoring]: from the collected predictions to the
    scalar entropy. *)
Definition ensemble_entropy (self : EpistemicScoringWithLabels)
    (accum_unl_outputs : list tensor) : result pyfloat :=
  match np_stack accum_unl_outputs with
  | Ok accum_numpy =>
      let accum_numpy := np_squeeze accum_numpy in
      let accum_numpy :=
        if dimension self =? 3
        then (if (4 <? ndim accum_numpy)%nat then drop_background accum_numpy else accum_numpy)
        else (if (3 <? ndim accum_numpy)%nat then drop_background accum_numpy else accum_numpy) in
      match variance_volume self accum_numpy with
      | Ok entropy => Ok (nanmean entropy)
      | Raise e => Raise e
      end
  | Raise e => Raise e
  end.

Definition py_range (n : Z) : list nat := seq 0 (Z.to_nat n).

(** [run_scoring].  On line 161 the arguments of the call are evaluated
    before it: [pred], the loop variable, then [ground_truth_label], a name
    that is assigned nowhere in the function and bound nowhere in the
    module. *)
Definition run_scoring (h : host) (self : EpistemicScoringWithLabels)
    (image_id : string) (simulation_size model_ts : Z) : M task_event unit :=
  start <- time_time h ;;
  image <- get_image_uri image_id ;;
  r <- scoring_loop self image_id image (py_range simulation_size) [] None ;;
  let accum_unl_outputs := r.1 in
  entropy <- lift_result (ensemble_entropy self accum_unl_outputs) ;;
  pred <- match r.2 with
          | Some pred => ret pred
          | None => raise (UnboundLocalError "pred")
          end ;;
  ground_truth_label <- unbound_global "ground_truth_label" ;;
  lq_score <- lift_result (get_label_quality_score pred ground_truth_label) ;;
  stop <- time_time h ;;
  let latency := (stop - start)%Q in
  emit (TLogResult image_id simulation_size (pyfloat_round entropy 4) (py_round latency 3)) ;;
  let info := <[key_output_ts self := PInt model_ts]>
                (<[key_output_entropy self := PFloat entropy]> ∅) in
  update_image_info image_id info.

(** ** The orchestrator *)

(** The scoring request: the recognised options, each optional. *)
Record Request := {
  req_max_samples : option Z;
  req_simulation_size : option Z;
  req_max_workers : option Z;
  req_multi_gpu : option bool;
  req_gpus : option string;
  req_device : option string
}.

Record Summary := {
  total : Z;
  skipped : Z;
  executed : Z;
  latency : Q
}.

(** Events of the orchestrator.  [ERunScoring] is one call of the per-image
    routine: its arguments, the events it emitted and how it ended. *)
Inductive event :=
  | ELogStart
  | EClearCache
  | EWarnSimulationSize
  | ELogTotal (unlabeled_images : nat) (max_samples : Z)
  | ELogPool (multi_gpu : bool) (device_ids : list string) (max_workers : Z)
  | ERunScoring (image_id : string) (simulation_size model_ts : Z)
                (tevs : list task_event) (r : result unit)
  | ELogSummary (summary : Summary).

(** The per-image routine as the orchestrator calls it: [self.run_scoring]
    with the datastore passed through the store. *)
Definition per_image := string → Z → Z → M task_event unit.

Definition call_run_scoring (rs : per_image) (image_id : string)
    (simulation_size model_ts : Z) : M event (result unit) :=
  λ s, let o := rs image_id simulation_size model_ts s in
       {| res := Ok (res o); st := st o;
          evs := [ERunScoring image_id simulation_size model_ts (evs o) (res o)] |}.

(** Line 73: the model version tag. *)
Definition model_version_tag (h : host) (model_file : option string) : Z :=
  match model_file with
  | Some f =>
      if bool_decide (f ≠ "")
      then match file_mtime h f with
           | Some mtime => py_int mtime
           | None => 1
           end
      else 1
  | None => 1
  end.

(** Lines 88-95: the filter over the unlabeled images. *)
Fixpoint filter_loop (model_ts : Z) (unlabeled_images : list string)
    (skipped : Z) (image_ids : list string) : M event (Z * list string) :=
  match unlabeled_images with
  | [] => ret (skipped, image_ids)
  | image_id :: rest =>
      image_info <- get_image_info image_id ;;
      let prev_ts := default (PInt 0) (image_info !! "epistemic_ts") in
      if py_eq_int prev_ts model_ts
      then filter_loop model_ts rest (skipped + 1) image_ids
      else filter_loop model_ts rest skipped (image_ids ++ [image_id])
  end.

(** Lines 111-116: the thread pool.  Every image is submitted; the pool
    runs every submitted task to the end (leaving the [with] block waits for
    all of them), here one after the other in submission order; then the
    results are awaited in submission order, and the first failed one
    raises. *)
Fixpoint submit_all (rs : per_image) (image_ids : list string)
    (simulation_size model_ts : Z) : M event (list (result unit)) :=
  match image_ids with
  | [] => ret []
  | image_id :: rest =>
      future <- call_run_scoring rs image_id simulation_size model_ts ;;
      futures <- submit_all rs rest simulation_size model_ts ;;
      ret (future :: futures)
  end.

Fixpoint await_all (futures : list (result unit)) : M event unit :=
  match futures with
  | [] => ret tt
  | future :: rest => lift_result future ;; await_all rest
  end.

(** Lines 118-119: the sequential loop. *)
Fixpoint run_sequential (rs : per_image) (image_ids : list string)
    (simulation_size model_ts : Z) : M event unit :=
  match image_ids with
  | [] => ret tt
  | image_id :: rest =>
      r <- call_run_scoring rs image_id simulation_size model_ts ;;
      lift_result r ;;
      run_sequential rs rest simulation_size model_ts
  end.

Definition len {A} (l : list A) : Z := Z.of_nat (length l).

(** [__call__], over the per-image routine it dispatches. *)
Definition score_with (rs : per_image) (h : host) (self : EpistemicScoringWithLabels)
    (request : Request) : M event Summary :=
  emit ELogStart ;;
  let model_file := get_path (infer_task self) in
  let model_ts := model_version_tag h model_file in
  emit EClearCache ;;
  let skipped := 0 in
  unlabeled_images <- get_unlabeled_images ;;
  let max_samples := default (max_samples self) (req_max_samples request) in
  let simulation_size := default (simulation_size self) (req_simulation_size request) in
  simulation_size <- (if simulation_size <? 2
                      then emit EWarnSimulationSize ;; ret 2
                      else ret simulation_size) ;;
  emit (ELogTotal (length unlabeled_images) max_samples) ;;
  t_start <- time_time h ;;
  r <- filter_loop model_ts unlabeled_images skipped [] ;;
  let skipped := r.1 in
  let image_ids := r.2 in
  let image_ids := if max_samples =? 0 then image_ids else py_slice_to max_samples image_ids in
  let max_workers := default 2 (req_max_workers request) in
  let multi_gpu := default false (req_multi_gpu request) in
  let multi_gpus := default "all" (req_gpus request) in
  let gpus :=
    if bool_decide (multi_gpus = "") || bool_decide (multi_gpus = "all")
    then pretty <$> seq 0 (cuda_device_count h)
    else split_comma multi_gpus in
  let device_ids :=
    if multi_gpu then (λ id, "cuda:" +:+ id) <$> gpus
    else [default "cuda" (req_device request)] in
  let max_workers := if max_workers =? 0 then Z.max 1 (cpu_count h / 2) else max_workers in
  let max_workers := Z.min max_workers (cpu_count h) in
  (if (1 <? len image_ids) && ((max_workers =? 0) || (1 <? max_workers))
   then
     emit (ELogPool multi_gpu device_ids max_workers) ;;
     futures <- submit_all rs image_ids simulation_size model_ts ;;
     await_all futures
   else
     run_sequential rs image_ids simulation_size model_ts) ;;
  t_end <- time_time h ;;
  let summary := {| total := len unlabeled_images;
                    skipped := skipped;
                    executed := len image_ids;
                    latency := py_round (t_end - t_start) 3 |} in
  emit (ELogSummary summary) ;;
  emit EClearCache ;;
  ret summary.

(** [__call__] of the class: the per-image routine is its own [run_scoring]. *)
Definition score (h : host) (self : EpistemicScoringWithLabels) (request : Request)
    : M event Summary :=
  score_with (run_scoring h self) h self request.

(** ** Reading a run of the orchestrator

    The quantities a run of [score_with] works with, as functions of the
    request and of the store the run starts from, and what a trace says
    about the calls of the per-image routine. *)

(** The scoring timestamp stored for an image, if any (line 90-91 read it
    under the fixed key ["epistemic_ts"]). *)
Definition stored_ts (s : store) (image_id : string) : option pyval :=
  default ∅ (image_info s !! image_id) !! "epistemic_ts".

(** The test of line 92. *)
Definition is_skipped (s : store) (model_ts : Z) (image_id : string) : bool :=
  py_eq_int (default (PInt 0) (stored_ts s image_id)) model_ts.

(** The unlabeled images the filter keeps, in enumeration order. *)
Definition eligible (s : store) (model_ts : Z) : list string :=
  filter (λ image_id, is_skipped s model_ts image_id = false) (unlabeled s).

Definition skipped_images (s : store) (model_ts : Z) : list string :=
  filter (λ image_id, is_skipped s model_ts image_id = true) (unlabeled s).

Definition requested_max_samples (self : EpistemicScoringWithLabels) (request : Request) : Z :=
  default (max_samples self) (req_max_samples request).

Definition requested_simulation_size (self : EpistemicScoringWithLabels) (request : Request)
    : Z :=
  default (simulation_size self) (req_simulation_size request).

Definition effective_simulation_size (self : EpistemicScoringWithLabels) (request : Request)
    : Z :=
  if requested_simulation_size self request <? 2 then 2
  else requested_simulation_size self request.

(** The value of [image_ids] after line 96. *)
Definition work_list (self : EpistemicScoringWithLabels) (request : Request)
    (s : store) (model_ts : Z) : list string :=
  if requested_max_samples self request =? 0 then eligible s model_ts
  else py_slice_to (requested_max_samples self request) (eligible s model_ts).

(** The value of [max_workers] after line 107. *)
Definition effective_max_workers (h : host) (request : Request) : Z :=
  let max_workers := default 2 (req_max_workers request) in
  Z.min (if max_workers =? 0 then Z.max 1 (cpu_count h / 2) else max_workers) (cpu_count h).

(** The value of [device_ids] after line 104. *)
Definition device_ids (h : host) (request : Request) : list string :=
  let multi_gpus := default "all" (req_gpus request) in
  let gpus :=
    if bool_decide (multi_gpus = "") || bool_decide (multi_gpus = "all")
    then pretty <$> seq 0 (cuda_device_count h)
    else split_comma multi_gpus in
  if default false (req_multi_gpu request) then (λ id, "cuda:" +:+ id) <$> gpus
  else [default "cuda" (req_device request)].

(** The test of line 109: the run goes through the thread pool. *)
Definition uses_pool (h : host) (self : EpistemicScoringWithLabels) (request : Request)
    (s : store) (model_ts : Z) : bool :=
  (1 <? len (work_list self request s model_ts))
  && ((effective_max_workers h request =? 0) || (1 <? effective_max_workers h request)).

(** Lines 109-119. *)
Definition dispatch (rs : per_image) (h : host) (self : EpistemicScoringWithLabels)
    (request : Request) (s0 : store) (model_ts : Z) : M event unit :=
  let image_ids := work_list self request s0 model_ts in
  let simulation_size := effective_simulation_size self request in
  if uses_pool h self request s0 model_ts
  then
    emit (ELogPool (default false (req_multi_gpu request)) (device_ids h request)
            (effective_max_workers h request)) ;;
    futures <- submit_all rs image_ids simulation_size model_ts ;;
    await_all futures
  else run_sequential rs image_ids simulation_size model_ts.

(** The calls of the per-image routine a trace records: image and result. *)
Definition run_of (e : event) : option (string * result unit) :=
  match e with
  | ERunScoring image_id _ _ _ r => Some (image_id, r)
  | _ => None
  end.

Definition runs (l : list event) : list (string * result unit) := omap run_of l.

Definition dispatched (l : list event) : list string := (runs l).*1.

(** The exception of the first call, in the order of the trace, that raised. *)
Fixpoint first_failure (l : list (string * result unit)) : option exn :=
  match l with
  | [] => None
  | (_, Raise e) :: _ => Some e
  | (_, Ok _) :: l' => first_failure l'
  end.

Definition is_warning (e : event) : bool :=
  match e with EWarnSimulationSize => true | _ => false end.

Definition is_summary_log (e : event) : bool :=
  match e with ELogSummary _ => true | _ => false end.

(** The arguments a recorded call was made with. *)
Definition run_args (e : event) : option (Z * Z) :=
  match e with
  | ERunScoring _ simulation_size model_ts _ _ => Some (simulation_size, model_ts)
  | _ => None
  end.

(** The events of lines 109-119: the pool's log line and calls of the
    per-image routine with the given arguments. *)
Definition dispatch_event (simulation_size model_ts : Z) (e : event) : Prop :=
  match e with
  | ERunScoring _ simulation_size' model_ts' _ _ =>
      simulation_size' = simulation_size ∧ model_ts' = model_ts
  | ELogPool _ _ _ => True
  | _ => False
  end.


(** The request with its simulation size set. *)
Definition with_simulation_size (request : Request) (n : Z) : Request :=
  {| req_max_samples := req_max_samples request;
     req_simulation_size := Some n;
     req_max_workers := req_max_workers request;
     req_multi_gpu := req_multi_gpu request;
     req_gpus := req_gpus request;
     req_device := req_device request |}.

(** The two clock readings of a run of the orchestrator that starts in [s]
    and ends with the outcome [o]: the first reading of the run, and the
    last one made. *)
Definition start_reading (h : host) (s : store) : Q := now h (clock_reads s).

Definition end_reading {A} (h : host) (o : outcome event A) : Q :=
  now h (Nat.pred (clock_reads (st o))).

(** ** Reading the inference oracle

    What the loop of [run_scoring] makes of the successive results of the
    inference task, stated on the oracle. *)

(** The prediction an inference result contributes, if any. *)
Definition prediction_of (self : EpistemicScoringWithLabels) (r : result infer_data)
    : option tensor :=
  match r with
  | Ok (PyDict d) => default None (d !! output_label_key (infer_task self))
  | Ok NotDict | Raise _ => None
  end.

(** The result lets the loop go on: the call did not raise, and a dict
    has the output label key. *)
Definition usable (self : EpistemicScoringWithLabels) (r : result infer_data) : bool :=
  match r with
  | Ok NotDict => true
  | Ok (PyDict d) =>
      match d !! output_label_key (infer_task self) with Some _ => true | None => false end
  | Raise _ => false
  end.

(** Events of one iteration that goes on. *)
Definition iteration_events (self : EpistemicScoringWithLabels) (image_id image : string)
    (call i : nat) : list task_event :=
  [TInfer image;
   match prediction_of self (infer_call (infer_task self) call image) with
   | Some _ => TLogPred image_id i
   | None => TLogPredNone image_id i
   end].

(** Events and predictions of the iterations [range], the first of which
    makes the inference call number [call]. *)
Fixpoint loop_events (self : EpistemicScoringWithLabels) (image_id image : string)
    (call : nat) (range : list nat) : list task_event :=
  match range with
  | [] => []
  | i :: range' =>
      iteration_events self image_id image call i
      ++ loop_events self image_id image (S call) range'
  end.

Fixpoint collected (self : EpistemicScoringWithLabels) (image : string)
    (call n : nat) : list tensor :=
  match n with
  | O => []
  | S n' =>
      match prediction_of self (infer_call (infer_task self) call image) with
      | Some p => p :: collected self image (S call) n'
      | None => collected self image (S call) n'
      end
  end.

(** ** Predicates of the statements *)

(** A computation of the per-image routine is quiet when it performs no
    datastore update: it emits no update event and leaves the datastore
    contents as they were. *)
Definition quiet {A} (m : M task_event A) : Prop :=
  ∀ s, Forall (λ e, is_update e = false) (evs (m s))
       ∧ image_info (st (m s)) = image_info s
       ∧ unlabeled (st (m s)) = unlabeled s.

Definition always_raises {E A} (m : M E A) : Prop :=
  ∀ s, is_raise (res (m s)) = true.

Definition run_summary (h : host) (self : EpistemicScoringWithLabels) (request : Request)
    (s : store) (model_ts : Z) (t_start t_end : Q) : Summary :=
  {| total := len (unlabeled s);
     skipped := len (skipped_images s model_ts);
     executed := len (work_list self request s model_ts);
     latency := py_round (t_end - t_start) 3 |}.

(** The events of a run before the first image is dispatched. *)
Definition prologue (self : EpistemicScoringWithLabels) (request : Request) (s : store)
    : list event :=
  [ELogStart; EClearCache]
  ++ (if requested_simulation_size self request <? 2 then [EWarnSimulationSize] else [])
  ++ [ELogTotal (length (unlabeled s)) (requested_max_samples self request)].

Definition result_of_failure (failure : option exn) : result unit :=
  match failure with Some e => Raise e | None => Ok tt end.

End Scoring.

(** ** Further readings of a trace *)

Section Readings.

Context {tensor : Type}.

Definition is_clear_cache (e : event) : bool :=
  match e with EClearCache => true | _ => false end.

Definition is_infer (e : task_event) : bool :=
  match e with TInfer _ => true | _ => false end.

Definition count_infer (l : list task_event) : nat :=
  length (filter (λ e, is_infer e = true) l).

(** The image an inference call is made on. *)
Definition infer_image (e : task_event) : option string :=
  match e with TInfer image => Some image | _ => None end.

(** A recorded call of the per-image routine is a call of [rs]: its events
    and its result are those of [rs] on the recorded arguments, from some
    store. *)
Definition run_by (rs : per_image) (e : event) : Prop :=
  match e with
  | ERunScoring image_id simulation_size model_ts tevs r =>
      ∃ s, tevs = evs (rs image_id simulation_size model_ts s)
           ∧ r = res (rs image_id simulation_size model_ts s)
  | _ => True
  end.

(** The events of the per-image routine recorded in a trace. *)
Definition task_events (e : event) : list task_event :=
  match e with ERunScoring _ _ _ tevs _ => tevs | _ => [] end.

(** A per-image routine that leaves the contents of the datastore alone. *)
Definition keeps_datastore (rs : per_image) : Prop :=
  ∀ image_id simulation_size model_ts s,
    let o := rs image_id simulation_size model_ts s in
    image_info (st o) = image_info s ∧ unlabeled (st o) = unlabeled s.

(** What an inference result stops the loop of [run_scoring] with, if it
    does: the exception of the task, or the [KeyError] of a dict without
    the output label key. *)
Definition failure_of (self : EpistemicScoringWithLabels (tensor := tensor))
    (r : result (infer_data (tensor := tensor))) : option exn :=
  match r with
  | Raise e => Some e
  | Ok (PyDict d) =>
      match d !! output_label_key (infer_task self) with
      | Some _ => None
      | None => Some (KeyError (output_label_key (infer_task self)))
      end
  | Ok NotDict => None
  end.

(** Line 175: the metadata [run_scoring] builds for the image. *)
Definition scoring_info (self : EpistemicScoringWithLabels (tensor := tensor))
    (entropy : pyfloat) (model_ts : Z) : gmap string pyval :=
  <[key_output_ts self := PInt model_ts]>
    (<[key_output_entropy self := PFloat entropy]> ∅).

(** Two requests that differ at most in their device options. *)
Definition same_work (request1 request2 : Request) : Prop :=
  req_max_samples request1 = req_max_samples request2
  ∧ req_simulation_size request1 = req_simulation_size request2
  ∧ req_max_workers request1 = req_max_workers request2.

(** A log line of the pool, without what it says of the devices. *)
Definition forget_devices (e : event) : event :=
  match e with
  | ELogPool _ _ max_workers => ELogPool false [] max_workers
  | _ => e
  end.

End Readings.

(** ** Concrete runs

    A numeric backend for one-voxel volumes, a datastore with a few images
    and inference tasks with fixed answers, on which the definitions above
    are run. *)

(** A volume is the list of its voxel values; stacking one-voxel volumes
    gives the list of the trials. *)
Definition Qsum (l : list Q) : Q := foldr Qplus 0%Q l.

Definition Qmean (l : list Q) : Q := (Qsum l / inject_Z (len l))%Q.

Definition Qvariance (l : list Q) : Q :=
  let l := (λ x, if Qle_bool x 0 then (5 # 10000)%Q else x) <$> l in
  let m := Qmean l in
  Qmean ((λ x, (x - m) * (x - m))%Q <$> l).

#[export] Instance voxel_numerics : Numerics (list Q) := {|
  stack_arrays l :=
    if forallb (λ a, (length a =? 1)%nat) l then Ok (concat l)
    else Raise (ValueError "all input arrays must have the same shape");
  np_squeeze a := a;
  ndim a := 1%nat;
  drop_background a := drop 1 a;
  astype_float32 a := a;
  variance_metric a := Ok [Qvariance a];
  expand_dims0 a := a;
  nanmean a := match a with [] => FNaN | _ => FNum (Qmean a) end;
  label_quality_score a b := Ok (FNum (Qsum (zip_with (λ x y, Qabs (x - y)) a b)))
|}.

Definition sample_host : host :=
  {| file_mtime := λ f, if String.eqb f "model.pt" then Some 0%Q
                        else if String.eqb f "deepgrow_3d.pt" then Some (3401 # 2)%Q
                        else None;
     cpu_count := 4;
     cuda_device_count := 1;
     now := λ k, inject_Z (Z.of_nat k) |}.

(** The same host, with a wall clock that is set back after its first
    reading. *)
Definition stepping_back_host : host :=
  {| file_mtime := file_mtime sample_host;
     cpu_count := 4;
     cuda_device_count := 1;
     now := λ k, match k with O => 10%Q | _ => 5%Q end |}.

(** A task without model file that predicts on every call. *)
Definition steady_task : InferTask :=
  {| task_dimension := 3;
     output_label_key := "pred";
     get_path := None;
     infer_call := λ _ _, Ok (PyDict {[ "pred" := Some [(1 # 2)%Q] ]}) |}.

(** A task whose model file has modification time 0. *)
Definition epoch_task : InferTask :=
  {| task_dimension := 3;
     output_label_key := "pred";
     get_path := Some "model.pt";
     infer_call := λ _ _, Ok (PyDict {[ "pred" := Some [(1 # 2)%Q] ]}) |}.

(** A task that predicts on its first call only: afterwards it returns
    something that is not a dict. *)
Definition fading_task : InferTask :=
  {| task_dimension := 3;
     output_label_key := "pred";
     get_path := None;
     infer_call := λ k _, match k with
                          | O => Ok (PyDict {[ "pred" := Some [(1 # 2)%Q] ]})
                          | _ => Ok NotDict
                          end |}.

(** A task that returns a dict with a [None] prediction, then a dict
    without the output label key. *)
Definition faulty_task : InferTask :=
  {| task_dimension := 3;
     output_label_key := "pred";
     get_path := None;
     infer_call := λ k _, match k with
                          | O => Ok (PyDict {[ "pred" := None ]})
                          | _ => Ok (PyDict {[ "other" := Some [(1 # 2)%Q] ]})
                          end |}.

Definition empty_request : Request :=
  {| req_max_samples := None; req_simulation_size := None; req_max_workers := None;
     req_multi_gpu := None; req_gpus := None; req_device := None |}.

Definition request_max_samples (n : Z) : Request :=
  {| req_max_samples := Some n; req_simulation_size := None; req_max_workers := None;
     req_multi_gpu := None; req_gpus := None; req_device := None |}.

Definition store_of (images : list string) : store :=
  {| unlabeled := images; image_info := ∅; image_uri := λ i, "file://" +:+ i;
     infer_calls := 0; clock_reads := 0 |}.

(** A per-image routine that only records the tag: what [run_scoring] would
    leave in the datastore were the entropy 0. *)
Definition tagging_routine : per_image :=
  λ image_id _ model_ts,
    update_image_info image_id
      (<["epistemic_ts" := PInt model_ts]> (<["epistemic_entropy" := PFloat (FNum 0)]> ∅)).

(** A task that predicts on its first call and raises on the next ones. *)
Definition crashing_task : InferTask :=
  {| task_dimension := 3;
     output_label_key := "pred";
     get_path := None;
     infer_call := λ k _, match k with
                          | O => Ok (PyDict {[ "pred" := Some [(1 # 2)%Q] ]})
                          | _ => Raise (OtherError "CUDA out of memory")
                          end |}.

Definition gpu_request : Request :=
  {| req_max_samples := None; req_simulation_size := None; req_max_workers := None;
     req_multi_gpu := Some true; req_gpus := Some "0,1"; req_device := Some "cpu" |}.

Definition one_worker_request : Request :=
  {| req_max_samples := None; req_simulation_size := Some 2; req_max_workers := Some 1;
     req_multi_gpu := None; req_gpus := None; req_device := None |}.



(** ** Volumes of any shape

    The numeric backend of section 4.1 of the specification, for arrays of
    any shape.  The variance metric comes from the library, whose code is
    not part of the repository: it is modelled on the words of section 4.1,
    "a per-voxel variance metric across the trial axis with a small
    thresholding epsilon", with the threshold 0.0005 of line 53. *)

(** Modelled from the spec: an array is its shape and its elements in
    row-major order, rationals standing for the floating-point numbers, so
    that the cast to [float32] changes nothing. *)
Record ndarray := { arr_shape : list nat; arr_data : list Q }.

(** The number of elements of an array of a given shape. *)
Definition shape_size (shape : list nat) : nat := foldr Nat.mul 1%nat shape.

Definition well_shaped (a : ndarray) : Prop :=
  length (arr_data a) = shape_size (arr_shape a).

(** Two arrays that hold the same numbers. *)
Definition same_array (a b : ndarray) : Prop :=
  arr_shape a = arr_shape b ∧ Forall2 Qeq (arr_data a) (arr_data b).

Definition same_result (a b : result ndarray) : Prop :=
  match a, b with
  | Ok a, Ok b => same_array a b
  | Raise e, Raise e' => e = e'
  | _, _ => False
  end.

(** [np.stack]: arrays of one shape, along a new leading axis. *)
Definition stack_ndarrays (arrays : list ndarray) : result ndarray :=
  match arrays with
  | [] => Raise (ValueError "need at least one array to stack")
  | first :: _ =>
      if forallb (λ a, bool_decide (arr_shape a = arr_shape first)) arrays
      then Ok {| arr_shape := length arrays :: arr_shape first;
                 arr_data := concat (arr_data <$> arrays) |}
      else Raise (ValueError "all input arrays must have the same shape")
  end.

(** [np.squeeze]: the axes of length 1 are removed. *)
Definition squeeze (a : ndarray) : ndarray :=
  {| arr_shape := filter (λ k, k ≠ 1%nat) (arr_shape a); arr_data := arr_data a |}.

(** The data of an array of [n] members of [m] elements each, member by
    member. *)
Fixpoint chunks (m n : nat) (data : list Q) : list (list Q) :=
  match n with
  | O => []
  | S n => take m data :: chunks m n (drop m data)
  end.

(** [a[:, 1:, ...]]: the first channel of every member is dropped. *)
Definition drop_channel (a : ndarray) : ndarray :=
  match arr_shape a with
  | n :: c :: shape =>
      let m := shape_size shape in
      {| arr_shape := n :: (c - 1)%nat :: shape;
         arr_data := concat (drop m <$> chunks (c * m) n (arr_data a)) |}
  | _ => a
  end.

(** The values that the [n] members of an ensemble, of [m] elements each,
    have at element [j]. *)
Definition across_trials (m n : nat) (data : list Q) (j : nat) : list Q :=
  (λ t, nth (t * m + j) data 0%Q) <$> seq 0 n.

(** Modelled from the spec: the variance metric of section 4.1 with a
    spatial map; the leading axis is the trial axis, and every element of
    the map is the variance, after thresholding, of the values of the
    members at this element. *)
Definition variance_map (a : ndarray) : result ndarray :=
  match arr_shape a with
  | [] => Raise (ValueError "variance of an array without trial axis")
  | n :: shape =>
      let m := shape_size shape in
      Ok {| arr_shape := shape;
            arr_data := (λ j, Qvariance (across_trials m n (arr_data a) j)) <$> seq 0 m |}
  end.

(** Modelled from the spec: the operations of section 4.1 on these arrays. *)
#[export] Instance ndarray_numerics : Numerics ndarray := {|
  stack_arrays := stack_ndarrays;
  np_squeeze := squeeze;
  ndim a := length (arr_shape a);
  drop_background := drop_channel;
  astype_float32 a := a;
  variance_metric := variance_map;
  expand_dims0 a := {| arr_shape := 1%nat :: arr_shape a; arr_data := arr_data a |};
  nanmean a := match arr_data a with [] => FNaN | _ => FNum (Qmean (arr_data a)) end;
  label_quality_score a b :=
    Ok (FNum (Qsum (zip_with (λ x y, Qabs (x - y)) (arr_data a) (arr_data b))))
|}.

(** An ensemble of [n] members that are all [member]. *)
Definition identical_members (n : nat) (member : ndarray) : ndarray :=
  {| arr_shape := n :: arr_shape member;
     arr_data := concat (replicate n (arr_data member)) |}.

(** A task whose every pass predicts the same volume of two channels. *)
Definition two_channel_volume : ndarray :=
  {| arr_shape := [2; 1; 1; 2]%nat;
     arr_data := [(1 # 2); (1 # 4); 0; (-3 # 4)]%Q |}.

Definition volume_task : InferTask :=
  {| task_dimension := 3;
     output_label_key := "pred";
     get_path := None;
     infer_call := λ _ _, Ok (PyDict {[ "pred" := Some two_channel_volume ]}) |}.

(** One member without its first channel, and the member as the reducer
    receives it in [run_scoring]: squeezed, and without its first channel
    when the squeezed ensemble has more than 4 axes (3 for 2-D tasks). *)
Definition drop_first_channel (member : ndarray) : ndarray :=
  match arr_shape member with
  | c :: shape =>
      {| arr_shape := (c - 1)%nat :: shape;
         arr_data := drop (shape_size shape) (arr_data member) |}
  | [] => member
  end.

Definition reduced_member (self : EpistemicScoringWithLabels (tensor := ndarray))
    (member : ndarray) : ndarray :=
  let member' := squeeze member in
  let rank := S (length (arr_shape member')) in
  if dimension self =? 3
  then (if (4 <? rank)%nat then drop_first_channel member' else member')
  else (if (3 <? rank)%nat then drop_first_channel member' else member').

(** * The deepgrow sample application

    Embedding of [sample-apps/deepgrow/main.py] (class [MyApp]): the tables
    [__init__] builds and [train].  A dict whose order matters is an
    association list; the training task class [TrainDeepgrow] and the infer
    classes are records of their constructor arguments; running a training
    task is an oracle [run_task]; [train] returns its result together with
    the trace of its log lines and task runs. *)

Module Deepgrow.

Inductive app_exn :=
  | AppKeyError (key : string)
  | AppIndexError
  | AppException (msg : string)
  | TaskError (e : exn).

(** [os.path.join(a, b)] on POSIX. *)
Fixpoint ends_with_slash (s : string) : bool :=
  match s with
  | EmptyString => false
  | String c EmptyString => Ascii.eqb c "/"%char
  | String _ rest => ends_with_slash rest
  end.

Definition path_join (a b : string) : string :=
  if String.prefix "/" b then b
  else if String.eqb a "" || ends_with_slash a then a +:+ b
  else a +:+ "/" +:+ b.

(** [d[key]] on a dict. *)
Fixpoint dict_get {V} (d : list (string * V)) (key : string) : option V :=
  match d with
  | [] => None
  | (k, v) :: d' => if String.eqb k key then Some v else dict_get d' key
  end.

Record BasicUNet := {
  dimensions : Z;
  in_channels : Z;
  out_channels : Z;
  features : list Z
}.

Record ModelData := {
  network : option BasicUNet;
  path : list string;
  url : string
}.

Record InferDeepgrow := {
  infer_path : list string;
  infer_network : option BasicUNet;
  infer_dimension : Z;
  infer_model_size : list Z
}.

Record InferDeepgrowPipeline := {
  pipeline_path : list string;
  pipeline_network : option BasicUNet;
  model_3d : InferDeepgrow
}.

Inductive infer :=
  | Infer (task : InferDeepgrow)
  | Pipeline (task : InferDeepgrowPipeline).

Inductive strategy := Random | MyStrategy.

Record MyApp := {
  app_dir : string;
  studies : string;
  model_dir : string;
  data : list (string * ModelData);
  infers : list (string * infer);
  strategies : list (string * strategy);
  resources : list (string * string);
  datalist : list (string * string)
}.

Definition unet (dims : Z) : BasicUNet :=
  {| dimensions := dims; in_channels := 3; out_channels := 1;
     features := [32; 64; 128; 256; 512; 32] |}.

(** Lines 18-40: the three entries of [self.data]. *)
Definition data_deepgrow_2d (model_dir : string) : ModelData :=
  {| network := Some (unet 2);
     path := [path_join model_dir "deepgrow_2d.pt"; path_join model_dir "deepgrow_2d_final.pt"];
     url := "https://www.dropbox.com/s/t6kazwpvi2f1ppl/deepgrow_2d.pt?dl=1" |}.

Definition data_deepgrow_3d (model_dir : string) : ModelData :=
  {| network := Some (unet 3);
     path := [path_join model_dir "deepgrow_3d.pt"; path_join model_dir "deepgrow_3d_final.pt"];
     url := "https://www.dropbox.com/s/xgortm6ljd3dvhw/deepgrow_3d.pt?dl=1" |}.

Definition data_segmentation_spleen (model_dir : string) : ModelData :=
  {| network := None;
     path := [path_join model_dir "segmentation_spleen.ts"];
     url := "https://www.dropbox.com/s/p60vfxpa4l64fmz/segmentation_spleen.ts?dl=1" |}.

Definition model_data (model_dir : string) : list (string * ModelData) :=
  [("deepgrow_2d", data_deepgrow_2d model_dir);
   ("deepgrow_3d", data_deepgrow_3d model_dir);
   ("segmentation_spleen", data_segmentation_spleen model_dir)].

(** [__init__]; [datalist] is what [self.datastore().datalist()] gives.
    Lines 42-68 read the table at keys it has, and the first path of every
    entry, which every entry has. *)
Definition new (app_dir studies : string) (datalist : list (string * string)) : MyApp :=
  let model_dir := path_join app_dir "model" in
  let data := model_data model_dir in
  let deepgrow_3d :=
    {| infer_path := path (data_deepgrow_3d model_dir);
       infer_network := network (data_deepgrow_3d model_dir);
       infer_dimension := 3;
       infer_model_size := [128; 192; 192] |} in
  let infers :=
    [("deepgrow", Pipeline {| pipeline_path := path (data_deepgrow_2d model_dir);
                              pipeline_network := network (data_deepgrow_2d model_dir);
                              model_3d := deepgrow_3d |});
     ("deepgrow_2d", Infer {| infer_path := path (data_deepgrow_2d model_dir);
                              infer_network := network (data_deepgrow_2d model_dir);
                              infer_dimension := 2;
                              infer_model_size := [256; 256] |});
     ("deepgrow_3d", Infer deepgrow_3d)] in
  let strategies := [("random", Random); ("first", MyStrategy)] in
  let resources :=
    omap (λ kv : string * ModelData, (λ p, (p, url kv.2)) <$> path kv.2 !! 0%nat) data in
  {| app_dir := app_dir; studies := studies; model_dir := model_dir; data := data;
     infers := infers; strategies := strategies; resources := resources;
     datalist := datalist |}.

(** The training request: the recognised options, each optional. *)
Record TrainRequest := {
  tr_model : option string;
  tr_name : option string;
  tr_device : option string;
  tr_lr : option Q;
  tr_val_split : option Q;
  tr_epochs : option Z;
  tr_amp : option bool
}.

Record TrainDeepgrow := {
  dimension : Z;
  roi_size : list Z;
  model_size : list Z;
  max_train_interactions : Z;
  max_val_interactions : Z;
  output_dir : string;
  data_list : list (string * string);
  train_network : option BasicUNet;
  device : string;
  lr : Q;
  val_split : Q;
  load_path : string;
  publish_path : string
}.

Section Train.

(** The result of a training run, and the run itself. *)
Context {R : Type}.
Variable run_task : TrainDeepgrow → Z → bool → result R.

Inductive train_event :=
  | LogRequest (request : TrainRequest)
  | LogSelected (models : list string)
  | LogCreating (model : string)
  | LogWeights (load_path : string)
  | LogTotal (tasks : nat)
  | RunTask (task : TrainDeepgrow) (max_epochs : Z) (amp : bool) (r : result R).

(** A computation of [train]: its log, and how it ends. *)
Definition W (A : Type) : Type := list train_event * (app_exn + A).

Definition wret {A} (a : A) : W A := ([], inr a).

Definition wraise {A} (e : app_exn) : W A := ([], inl e).

Definition wbind {A B} (m : W A) (k : A → W B) : W B :=
  match m.2 with
  | inr a => (m.1 ++ (k a).1, (k a).2)
  | inl e => (m.1, inl e)
  end.

Definition log (e : train_event) : W unit := ([e], inr tt).

Definition index {A} (x : option A) (e : app_exn) : W A :=
  match x with Some a => wret a | None => wraise e end.

Definition file_exists (h : host) (p : string) : bool :=
  match file_mtime h p with Some _ => true | None => false end.

(** The body of the loop of lines 87-138, for one model. *)
Definition create_task (self : MyApp) (h : host) (request : TrainRequest) (model : string)
    : W TrainDeepgrow :=
  wbind (log (LogCreating model)) (λ _,
  let name := default "model_01" (tr_name request) in
  let output_dir := path_join (model_dir self) (model +:+ "_" +:+ name) in
  wbind (index (dict_get (data self) model) (AppKeyError model)) (λ data,
  let network := network data in
  let load_path := path_join output_dir "model.pt" in
  wbind (if file_exists h load_path then wret load_path
         else index (path data !! 0%nat) AppIndexError) (λ load_path,
  wbind (log (LogWeights load_path)) (λ _,
  wbind (index (path data !! 1%nat) AppIndexError) (λ final_model,
  if String.eqb model "deepgrow_3d" then
    wret {| dimension := 3;
            roi_size := [128; 192; 192];
            model_size := [128; 192; 192];
            max_train_interactions := 15;
            max_val_interactions := 20;
            output_dir := output_dir;
            data_list := datalist self;
            train_network := network;
            device := default "cuda" (tr_device request);
            lr := default (1 # 10000)%Q (tr_lr request);
            val_split := default (2 # 10)%Q (tr_val_split request);
            load_path := load_path;
            publish_path := final_model |}
  else if String.eqb model "deepgrow_2d" then
    wret {| dimension := 2;
            roi_size := [256; 256];
            model_size := [256; 256];
            max_train_interactions := 15;
            max_val_interactions := 5;
            output_dir := output_dir;
            data_list := datalist self;
            train_network := network;
            device := default "cuda" (tr_device request);
            lr := default (1 # 10000)%Q (tr_lr request);
            val_split := default (2 # 10)%Q (tr_val_split request);
            load_path := load_path;
            publish_path := final_model |}
  else wraise (AppException ("Train Definition for " +:+ model +:+ " Not Found"))))))).

(** Lines 86-138. *)
Fixpoint create_tasks (self : MyApp) (h : host) (request : TrainRequest)
    (models : list string) (tasks : list TrainDeepgrow) : W (list TrainDeepgrow) :=
  match models with
  | [] => wret tasks
  | model :: models' =>
      wbind (create_task self h request model) (λ task,
      create_tasks self h request models' (tasks ++ [task]))
  end.

(** Lines 141-143. *)
Fixpoint run_tasks (request : TrainRequest) (tasks : list TrainDeepgrow) (result : option R)
    : W (option R) :=
  match tasks with
  | [] => wret result
  | task :: tasks' =>
      let max_epochs := default 1 (tr_epochs request) in
      let amp := default true (tr_amp request) in
      let r := run_task task max_epochs amp in
      wbind (log (RunTask task max_epochs amp r)) (λ _,
      match r with
      | Ok result => run_tasks request tasks' (Some result)
      | Raise e => wraise (TaskError e)
      end)
  end.

Definition train (self : MyApp) (h : host) (request : TrainRequest) : W (option R) :=
  wbind (log (LogRequest request)) (λ _,
  let model := default "deepgrow_2d" (tr_model request) in
  let models := if String.eqb model "all" then ["deepgrow_2d"; "deepgrow_3d"] else [model] in
  wbind (log (LogSelected models)) (λ _,
  wbind (create_tasks self h request models []) (λ tasks,
  wbind (log (LogTotal (length tasks))) (λ _,
  run_tasks request tasks None)))).

(** A training task of [train] matches the infer task registered by
    [__init__] for one of the deepgrow models: same dimension, network and
    model size; it publishes to the second path of the infer task; it works
    in the directory of the model and the run name, and loads the
    checkpoint of that directory if there is one, the first path of the
    infer task otherwise. *)
Definition matches_infer (self : MyApp) (h : host) (request : TrainRequest)
    (task : TrainDeepgrow) : Prop :=
  ∃ model inf base,
    (model = "deepgrow_2d" ∨ model = "deepgrow_3d")
    ∧ dict_get (infers self) model = Some (Infer inf)
    ∧ infer_dimension inf = dimension task
    ∧ infer_network inf = train_network task
    ∧ infer_model_size inf = model_size task
    ∧ infer_path inf = [base; publish_path task]
    ∧ output_dir task
      = path_join (model_dir self) (model +:+ "_" +:+ default "model_01" (tr_name request))
    ∧ load_path task
      = (if file_exists h (path_join (output_dir task) "model.pt")
         then path_join (output_dir task) "model.pt" else base).

Definition is_not_found {A} (r : app_exn + A) : bool :=
  match r with inl (AppException _) => true | _ => false end.

(** The training tasks a trace shows as run, in order. *)
Definition task_of (e : train_event) : option TrainDeepgrow :=
  match e with RunTask task _ _ _ => Some task | _ => None end.

Definition tasks_run (l : list train_event) : list TrainDeepgrow := omap task_of l.

End Train.

(** A training request for one model, and a training run that returns the
    number of epochs times the dimension of the task. *)
Definition request_for (model : string) : TrainRequest :=
  {| tr_model := Some model; tr_name := None; tr_device := None; tr_lr := None;
     tr_val_split := None; tr_epochs := None; tr_amp := None |}.

Definition sample_run (task : TrainDeepgrow) (max_epochs : Z) (amp : bool) : result Z :=
  Ok (dimension task * max_epochs).

End Deepgrow.

(** * Properties *)

(** ** The monad *)

Lemma bind_ok {E A B} (m : M E A) (k : A → M E B) s a :
  res (m s) = Ok a →
  bind m k s = after (evs (m s)) (k a (st (m s))).
Proof. intros Hm. unfold bind. by rewrite Hm. Qed.

Lemma after_after {E A} (l1 l2 : list E) (o : outcome E A) :
  after l1 (after l2 o) = after (l1 ++ l2) o.
Proof. unfold after. cbn. by rewrite app_assoc. Qed.

Lemma after_nil {E A} (o : outcome E A) : after [] o = o.
Proof. by destruct o. Qed.

Lemma bind_raise {E A B} (m : M E A) (k : A → M E B) s e :
  res (m s) = Raise e →
  bind m k s = {| res := Raise e; st := st (m s); evs := evs (m s) |}.
Proof. intros Hm. unfold bind. by rewrite Hm. Qed.

Section Properties.

Context `{Numerics tensor}.

Implicit Types (self : EpistemicScoringWithLabels (tensor := tensor)).
Implicit Types (task : InferTask (tensor := tensor)).
Implicit Types (accum : list tensor) (d : gmap string (option tensor)).

(** ** Properties of the per-image routine *)

Lemma quiet_ret {A} (a : A) : quiet (ret a).
Proof. intros s; cbn; auto. Qed.

Lemma quiet_raise {A} e : quiet (raise e : M task_event A).
Proof. intros s; cbn; auto. Qed.

Lemma quiet_lift_result {A} (r : result A) : quiet (lift_result r).
Proof. destruct r; [apply quiet_ret | apply quiet_raise]. Qed.

Lemma quiet_emit e : is_update e = false → quiet (emit e).
Proof. intros He s; cbn; auto. Qed.

Lemma quiet_time_time h : quiet (time_time h).
Proof. intros s; cbn; auto. Qed.

Lemma quiet_get_image_uri image_id : quiet (get_image_uri image_id).
Proof. intros s; cbn; auto. Qed.

Lemma quiet_call_infer task image : quiet (call_infer task image).
Proof. intros s; cbn; auto. Qed.

Lemma quiet_bind {A B} (m : M task_event A) (k : A → M task_event B) :
  quiet m → (∀ a, quiet (k a)) → quiet (bind m k).
Proof.
  intros Hm Hk s. unfold bind.
  destruct (Hm s) as (Hev & Hinfo & Hunl).
  destruct (res (m s)) as [a|e]; cbn.
  - destruct (Hk a (st (m s))) as (Hev' & Hinfo' & Hunl').
    split; [apply Forall_app; auto | split; congruence].
  - auto.
Qed.

Lemma quiet_raise_bind {A B} e (k : A → M task_event B) : quiet (bind (raise e) k).
Proof. intros s; cbn; auto. Qed.

Lemma always_raises_bind {E A B} (m : M E A) (k : A → M E B) :
  (∀ a, always_raises (k a)) → always_raises (bind m k).
Proof.
  intros Hk s. unfold bind. destruct (res (m s)) as [a|e]; cbn; [apply Hk | done].
Qed.

Lemma always_raises_raise_bind {E A B} e (k : A → M E B) : always_raises (bind (raise e) k).
Proof. intros s; reflexivity. Qed.

Lemma quiet_scoring_iteration self image_id image i accum :
  quiet (scoring_iteration self image_id image i accum).
Proof.
  unfold scoring_iteration.
  apply quiet_bind; [apply quiet_call_infer |]. intros data.
  apply quiet_bind.
  - destruct data as [|d]; [apply quiet_ret |].
    destruct (d !! _); [apply quiet_ret | apply quiet_raise].
  - intros [p|]; (apply quiet_bind; [by apply quiet_emit | intros; apply quiet_ret]).
Qed.

Lemma quiet_scoring_loop self image_id image range accum pred :
  quiet (scoring_loop self image_id image range accum pred).
Proof.
  revert accum pred. induction range as [|i range IH]; intros accum pred; cbn.
  - apply quiet_ret.
  - apply quiet_bind; [apply quiet_scoring_iteration | intros r; apply IH].
Qed.

Lemma run_scoring_quiet h self image_id simulation_size model_ts :
  quiet (run_scoring h self image_id simulation_size model_ts).
Proof.
  unfold run_scoring.
  apply quiet_bind; [apply quiet_time_time | intros start].
  apply quiet_bind; [apply quiet_get_image_uri | intros image].
  apply quiet_bind; [apply quiet_scoring_loop | intros r].
  apply quiet_bind; [apply quiet_lift_result | intros entropy].
  apply quiet_bind; [destruct (r.2); [apply quiet_ret | apply quiet_raise] | intros pred].
  apply quiet_raise_bind.
Qed.

Lemma run_scoring_always_raises h self image_id simulation_size model_ts :
  always_raises (run_scoring h self image_id simulation_size model_ts).
Proof.
  unfold run_scoring.
  do 5 (apply always_raises_bind; intros ?).
  apply always_raises_raise_bind.
Qed.

(** C1 (as the code behaves): [run_scoring] never reaches its
    [update_image_info] call.  For every image, simulation size, model tag
    and datastore it ends by raising, it emits no update event and it leaves
    the metadata of every image as it was: the undefined name
    [ground_truth_label] (line 161) is evaluated before the update
    (line 176). *)
Theorem run_scoring_performs_no_update h self image_id simulation_size model_ts s :
  let o := run_scoring h self image_id simulation_size model_ts s in
  is_raise (res o) = true
  ∧ filter (λ e, is_update e = true) (evs o) = []
  ∧ image_info (st o) = image_info s.
Proof.
  cbn zeta.
  destruct (run_scoring_quiet h self image_id simulation_size model_ts s) as (Hev & Hinfo & _).
  split; [apply run_scoring_always_raises |]. split; [| done].
  induction Hev as [|e l He Hl IH]; [done |].
  rewrite filter_cons. destruct (decide (is_update e = true)); [congruence | done].
Qed.

Lemma scoring_iteration_usable self image_id image i accum s :
  usable self (infer_call (infer_task self) (infer_calls s) image) = true →
  let o := scoring_iteration self image_id image i accum s in
  let pred := prediction_of self (infer_call (infer_task self) (infer_calls s) image) in
  res o = Ok (accum ++ match pred with Some p => [p] | None => [] end, pred)
  ∧ evs o = iteration_events self image_id image (infer_calls s) i
  ∧ infer_calls (st o) = S (infer_calls s)
  ∧ clock_reads (st o) = clock_reads s
  ∧ image_uri (st o) = image_uri s.
Proof.
  unfold scoring_iteration, iteration_events, usable, prediction_of, bind, call_infer.
  cbn. destruct (infer_call _ _ _) as [[|d]|e]; cbn; [| |done].
  - intros _. rewrite app_nil_r. done.
  - destruct (d !! _) as [[p|]|]; cbn; [| |done]; intros _; rewrite ?app_nil_r; done.
Qed.

Lemma scoring_iteration_missing_key self image_id image i accum s d :
  infer_call (infer_task self) (infer_calls s) image = Ok (PyDict d) →
  d !! output_label_key (infer_task self) = None →
  let o := scoring_iteration self image_id image i accum s in
  res o = Raise (KeyError (output_label_key (infer_task self)))
  ∧ evs o = [TInfer image].
Proof.
  intros Hd Hk. unfold scoring_iteration, bind, call_infer. cbn.
  rewrite Hd. cbn. rewrite Hk. done.
Qed.

Lemma scoring_loop_complete self image_id image range :
  ∀ accum pred s,
  (∀ j, (j < length range)%nat →
        usable self (infer_call (infer_task self) (infer_calls s + j) image) = true) →
  let o := scoring_loop self image_id image range accum pred s in
  (∃ pred', res o = Ok (accum ++ collected self image (infer_calls s) (length range), pred')
            ∧ (range ≠ [] ∨ is_Some pred → is_Some pred'))
  ∧ evs o = loop_events self image_id image (infer_calls s) range
  ∧ clock_reads (st o) = clock_reads s.
Proof.
  induction range as [|i range IH]; intros accum pred s Hus; cbn.
  - rewrite app_nil_r. split; [exists pred; split; [done | intros [?|?]; done] | done].
  - pose proof (scoring_iteration_usable self image_id image i accum s) as Hit.
    rewrite <- (Nat.add_0_r (infer_calls s)) in Hit at 1.
    specialize (Hit (Hus 0%nat ltac:(cbn; lia))). cbn zeta in Hit.
    destruct Hit as (Hres & Hev & Hcalls & Hclock & _).
    rewrite (bind_ok _ _ _ _ Hres). cbn [res st evs fst snd after].
    set (s1 := st (scoring_iteration self image_id image i accum s)) in *.
    specialize (IH (accum ++ match prediction_of self
                                     (infer_call (infer_task self) (infer_calls s) image) with
                             | Some p => [p] | None => [] end)
                   (Some (prediction_of self
                            (infer_call (infer_task self) (infer_calls s) image))) s1).
    rewrite Hcalls in IH.
    destruct IH as ((pred' & Hres' & Hsome) & Hev' & Hclock').
    { intros j Hj. replace (S (infer_calls s) + j)%nat with (infer_calls s + S j)%nat by lia.
      apply Hus. cbn. lia. }
    split; [| split].
    + exists pred'. split; [| intros _; apply Hsome; right; eauto].
      rewrite Hres'. f_equal. f_equal. rewrite <- app_assoc. f_equal.
      destruct (prediction_of _ _); done.
    + rewrite Hev, Hev'. done.
    + congruence.
Qed.

Lemma scoring_loop_abort self image_id image d k :
  ∀ range accum pred s,
  (k < length range)%nat →
  (∀ j, (j < k)%nat →
        usable self (infer_call (infer_task self) (infer_calls s + j) image) = true) →
  infer_call (infer_task self) (infer_calls s + k) image = Ok (PyDict d) →
  d !! output_label_key (infer_task self) = None →
  let o := scoring_loop self image_id image range accum pred s in
  res o = Raise (KeyError (output_label_key (infer_task self)))
  ∧ evs o = loop_events self image_id image (infer_calls s) (take k range) ++ [TInfer image].
Proof.
  induction k as [|k IH]; intros range accum pred s Hk Hus Hd Hkey;
    (destruct range as [|i range]; [cbn in Hk; lia |]); cbn.
  - rewrite Nat.add_0_r in Hd.
    destruct (scoring_iteration_missing_key self image_id image i accum s d Hd Hkey)
      as (Hres & Hev).
    rewrite (bind_raise _ _ _ _ Hres). cbn [res st evs after]. by rewrite Hev.
  - pose proof (scoring_iteration_usable self image_id image i accum s) as Hit.
    rewrite <- (Nat.add_0_r (infer_calls s)) in Hit at 1.
    specialize (Hit (Hus 0%nat ltac:(lia))). cbn zeta in Hit.
    destruct Hit as (Hres & Hev & Hcalls & _).
    rewrite (bind_ok _ _ _ _ Hres). cbn [res st evs fst snd after].
    set (s1 := st (scoring_iteration self image_id image i accum s)) in *.
    edestruct (IH range) as (Hres' & Hev').
    { cbn in Hk. lia. }
    { intros j Hj. rewrite Hcalls.
      replace (S (infer_calls s) + j)%nat with (infer_calls s + S j)%nat by lia.
      apply Hus. lia. }
    { rewrite Hcalls.
      replace (S (infer_calls s) + k)%nat with (infer_calls s + S k)%nat by lia. exact Hd. }
    { exact Hkey. }
    rewrite Hres', Hev, Hev', Hcalls. split; [done |]. reflexivity.
Qed.

Lemma run_scoring_unfold h self image_id simulation_size model_ts s :
  let s1 := tick s in
  let image := image_uri s image_id in
  let l := scoring_loop self image_id image (py_range simulation_size) [] None s1 in
  res (run_scoring h self image_id simulation_size model_ts s) =
    match res l with
    | Ok r =>
        match ensemble_entropy self r.1 with
        | Ok _ =>
            match r.2 with
            | Some _ => Raise (NameError "ground_truth_label")
            | None => Raise (UnboundLocalError "pred")
            end
        | Raise e => Raise e
        end
    | Raise e => Raise e
    end
  ∧ evs (run_scoring h self image_id simulation_size model_ts s) = evs l.
Proof.
  cbn zeta. unfold run_scoring.
  rewrite (bind_ok (time_time h) _ s (now h (clock_reads s)) eq_refl). cbn [res st evs after].
  set (s1 := tick s).
  rewrite (bind_ok (get_image_uri image_id) _ s1 (image_uri s image_id) eq_refl).
  cbn [res st evs get_image_uri ret app after].
  set (l := scoring_loop _ _ _ _ _ _ s1).
  destruct (res l) as [r|e] eqn:Hl.
  - rewrite (bind_ok _ _ _ _ Hl). cbn [res st evs after].
    destruct (ensemble_entropy self r.1) as [x|e]; cbn.
    + destruct (r.2); cbn; by rewrite app_nil_r.
    + by rewrite app_nil_r.
  - rewrite (bind_raise _ _ _ _ Hl). done.
Qed.

Lemma scoring_iteration_no_prediction self image_id image i accum s :
  let r := infer_call (infer_task self) (infer_calls s) image in
  res (scoring_iteration self image_id image i accum s) = Ok (accum, None)
  ↔ r = Ok NotDict
    ∨ ∃ d, r = Ok (PyDict d) ∧ d !! output_label_key (infer_task self) = Some None.
Proof.
  unfold scoring_iteration, bind, call_infer. cbn.
  destruct (infer_call _ _ _) as [[|d']|e]; cbn.
  - split; [by left | done].
  - destruct (d' !! _) as [[p|]|] eqn:Hd'; cbn.
    + split; [intros [=] | intros [[=] | (d2 & [= <-] & Hd2)]; congruence].
    + split; [intros _; right; eauto | done].
    + split; [done | intros [[=] | (d2 & [= <-] & Hd2)]; congruence].
  - split; [done | intros [[=] | (d2 & [=] & _)]].
Qed.

(** C10 (amended): an iteration is taken as "no prediction" exactly when the
    inference task returned something that is not a dict, or a dict whose
    entry under the output label key is [None]; and a dict that lacks the
    key makes the lookup raise [KeyError], which ends [run_scoring] for the
    image at once: after k iterations that went on (each logged as a
    prediction or as none), the next inference call is the last event. *)
Theorem run_scoring_missing_label_key h self image_id simulation_size model_ts s :
  let task := infer_task self in
  let image := image_uri s image_id in
  (∀ i accum s',
     let r := infer_call task (infer_calls s') image in
     res (scoring_iteration self image_id image i accum s') = Ok (accum, None)
     ↔ r = Ok NotDict ∨ ∃ d', r = Ok (PyDict d') ∧ d' !! output_label_key task = Some None)
  ∧ (∀ k d,
       (k < Z.to_nat simulation_size)%nat →
       (∀ j, (j < k)%nat → usable self (infer_call task (infer_calls s + j) image) = true) →
       infer_call task (infer_calls s + k) image = Ok (PyDict d) →
       d !! output_label_key task = None →
       let o := run_scoring h self image_id simulation_size model_ts s in
       res o = Raise (KeyError (output_label_key task))
       ∧ evs o = loop_events self image_id image (infer_calls s) (seq 0 k) ++ [TInfer image]).
Proof.
  intros task image. split.
  - intros i accum s'. apply scoring_iteration_no_prediction.
  - intros k d Hk Hus Hd Hkey. cbn zeta.
    destruct (run_scoring_unfold h self image_id simulation_size model_ts s) as (Hres & Hev).
    rewrite Hres, Hev. clear Hres Hev.
    edestruct (scoring_loop_abort self image_id image d k (py_range simulation_size) [] None
                 (tick s)) as (Hres & Hev).
    { unfold py_range. rewrite length_seq. exact Hk. }
    { exact Hus. }
    { exact Hd. }
    { exact Hkey. }
    fold image. rewrite Hres, Hev. split; [done |].
    unfold py_range. rewrite take_seq. cbn [infer_calls tick].
    by replace (k `min` Z.to_nat simulation_size)%nat with k by lia.
Qed.

(** C4 (as the code behaves): when every inference call goes on but fewer
    than 2 of them yield a prediction, [run_scoring] has no guard of its
    own.  The collected ensemble is handed to the reduction as it is: an
    empty one makes [np.stack] raise its [ValueError]; a singleton is
    stacked and reduced, and the routine then ends with whatever the
    reduction raised or with the [NameError] of line 161. *)
Theorem run_scoring_insufficient_ensemble h self image_id simulation_size model_ts s :
  let task := infer_task self in
  let image := image_uri s image_id in
  let ensemble := collected self image (infer_calls s) (Z.to_nat simulation_size) in
  (∀ j, (j < Z.to_nat simulation_size)%nat →
        usable self (infer_call task (infer_calls s + j) image) = true) →
  (length ensemble < 2)%nat →
  let o := run_scoring h self image_id simulation_size model_ts s in
  res o = match ensemble_entropy self ensemble with
          | Ok _ => Raise (NameError "ground_truth_label")
          | Raise e => Raise e
          end
  ∧ (ensemble = [] → res o = Raise (ValueError "need at least one array to stack")).
Proof.
  intros task image ensemble Hus Hlen o.
  assert (res o = match ensemble_entropy self ensemble with
                  | Ok _ => Raise (NameError "ground_truth_label")
                  | Raise e => Raise e
                  end) as Hres.
  { subst o. rewrite (proj1 (run_scoring_unfold h self image_id simulation_size model_ts s)).
    edestruct (scoring_loop_complete self image_id image (py_range simulation_size) [] None
                 (tick s)) as ((pred' & Hres & Hsome) & _).
    { unfold py_range. rewrite length_seq. exact Hus. }
    fold image. rewrite Hres. cbn [fst snd app].
    unfold py_range in *. rewrite length_seq. cbn [infer_calls tick].
    fold ensemble. destruct (ensemble_entropy self ensemble) as [x|e] eqn:Hent; [| done].
    destruct (Z.to_nat simulation_size) as [|n] eqn:Hn.
    - subst ensemble. cbn in Hent. done.
    - destruct Hsome as [p ->]; [left; done | done]. }
  split; [exact Hres |].
  intros Hnil. rewrite Hres, Hnil. reflexivity.
Qed.

(** ** Properties of the orchestrator *)

Lemma filter_loop_spec s model_ts unlabeled_images :
  ∀ skipped image_ids,
  filter_loop model_ts unlabeled_images skipped image_ids s =
  ret (skipped + len (filter (λ i, is_skipped s model_ts i = true) unlabeled_images),
       image_ids ++ filter (λ i, is_skipped s model_ts i = false) unlabeled_images) s.
Proof.
  induction unlabeled_images as [|image_id rest IH]; intros skipped image_ids.
  - cbn. unfold len, ret. cbn. by rewrite Z.add_0_r, app_nil_r.
  - cbn [filter_loop].
    rewrite (bind_ok (get_image_info image_id) _ s _ eq_refl).
    cbn [res st evs get_image_info ret]. rewrite after_nil.
    fold (stored_ts s image_id). fold (is_skipped s model_ts image_id).
    rewrite !filter_cons.
    destruct (is_skipped s model_ts image_id) eqn:Hskip; rewrite IH.
    + rewrite decide_True by done. rewrite decide_False by done.
      unfold len. cbn [length]. do 2 f_equal. lia.
    + rewrite decide_False by done. rewrite decide_True by done.
      by rewrite <- app_assoc.
Qed.

Lemma score_with_unfold rs h self request s :
  let model_ts := model_version_tag h (get_path (infer_task self)) in
  let d := dispatch rs h self request s model_ts (tick s) in
  score_with rs h self request s =
  match res d with
  | Ok _ =>
      let summary := run_summary h self request s model_ts
                       (now h (clock_reads s)) (now h (clock_reads (st d))) in
      {| res := Ok summary; st := tick (st d);
         evs := prologue self request s ++ evs d ++ [ELogSummary summary; EClearCache] |}
  | Raise e => {| res := Raise e; st := st d; evs := prologue self request s ++ evs d |}
  end.
Proof.
  cbn zeta. unfold score_with, prologue.
  rewrite (bind_ok (emit ELogStart) _ s tt eq_refl). cbn [res st evs emit].
  rewrite (bind_ok (emit EClearCache) _ s tt eq_refl). cbn [res st evs emit].
  rewrite (bind_ok get_unlabeled_images _ s (unlabeled s) eq_refl).
  cbn [res st evs get_unlabeled_images ret].
  fold (requested_simulation_size self request). fold (requested_max_samples self request).
  set (msim := if requested_simulation_size self request <? 2
               then bind (emit EWarnSimulationSize) (λ _, ret 2)
               else ret (requested_simulation_size self request)).
  assert (msim s = {| res := Ok (effective_simulation_size self request); st := s;
                      evs := if requested_simulation_size self request <? 2
                             then [EWarnSimulationSize] else [] |}) as Hsim.
  { subst msim. unfold effective_simulation_size.
    destruct (requested_simulation_size self request <? 2); reflexivity. }
  rewrite (bind_ok msim _ s (effective_simulation_size self request))
    by (by rewrite Hsim).
  rewrite Hsim. cbn [res st evs]. clear Hsim msim.
  rewrite (bind_ok (emit _) _ s tt eq_refl). cbn [res st evs emit].
  rewrite (bind_ok (time_time h) _ s _ eq_refl). cbn [res st evs time_time].
  rewrite (bind_ok (filter_loop _ _ _ _) _ (tick s) _
             (f_equal res (filter_loop_spec (tick s) _ (unlabeled s) 0 []))).
  rewrite (filter_loop_spec (tick s)). cbn [res st evs ret fst snd app].
  rewrite !after_after. cbn [app].
  match goal with
  | |- context [bind ?m _ (tick s)] =>
      change m with (dispatch rs h self request s
                       (model_version_tag h (get_path (infer_task self))))
  end.
  set (d := dispatch rs h self request s _).
  destruct (res (d (tick s))) as [[]|e] eqn:Hd.
  - rewrite (bind_ok d _ (tick s) tt Hd).
    rewrite (bind_ok (time_time h) _ _ _ eq_refl). cbn [res st evs time_time].
    rewrite (bind_ok (emit _) _ _ tt eq_refl). cbn [res st evs emit].
    rewrite (bind_ok (emit _) _ _ tt eq_refl). cbn [res st evs emit ret].
    rewrite !after_after. unfold after. cbn [res st evs ret].
    rewrite ?app_nil_r, <- ?app_assoc.
    destruct (requested_simulation_size self request <? 2); reflexivity.
  - rewrite (bind_raise d _ (tick s) e Hd). unfold after. cbn [res st evs].
    rewrite <- ?app_assoc.
    destruct (requested_simulation_size self request <? 2); reflexivity.
Qed.

Lemma runs_cons_run image_id simulation_size model_ts tevs r l :
  runs (ERunScoring image_id simulation_size model_ts tevs r :: l) = (image_id, r) :: runs l.
Proof. reflexivity. Qed.

Lemma runs_app l1 l2 : runs (l1 ++ l2) = runs l1 ++ runs l2.
Proof. apply omap_app. Qed.

Lemma dispatched_cons_run image_id simulation_size model_ts tevs r l :
  dispatched (ERunScoring image_id simulation_size model_ts tevs r :: l)
  = image_id :: dispatched l.
Proof. reflexivity. Qed.

Lemma submit_all_spec rs simulation_size model_ts image_ids :
  ∀ s, let o := submit_all rs image_ids simulation_size model_ts s in
  ∃ futures, res o = Ok futures
    ∧ runs (evs o) = zip image_ids futures
    ∧ length futures = length image_ids
    ∧ Forall (dispatch_event simulation_size model_ts) (evs o).
Proof.
  induction image_ids as [|image_id rest IH]; intros s; cbn zeta.
  - exists []. cbn. auto.
  - cbn [submit_all].
    rewrite (bind_ok (call_run_scoring rs image_id simulation_size model_ts) _ s _ eq_refl).
    cbn [res st evs call_run_scoring].
    set (s1 := st (rs image_id simulation_size model_ts s)).
    destruct (IH s1) as (futures & Hres & Hruns & Hlen & Hev).
    rewrite (bind_ok _ _ s1 futures Hres). cbn [res st evs ret after].
    eexists. split; [reflexivity |]. rewrite app_nil_r. cbn [app].
    split; [| split].
    + by rewrite runs_cons_run, Hruns.
    + cbn. by rewrite Hlen.
    + constructor; [by cbn | done].
Qed.

Lemma await_all_spec image_ids futures s :
  length futures = length image_ids →
  await_all futures s =
  {| res := result_of_failure (first_failure (zip image_ids futures)); st := s; evs := [] |}.
Proof.
  revert image_ids. induction futures as [|future futures IH];
    intros [|image_id image_ids] Hlen; try done.
  destruct future as [[]|e]; cbn [await_all].
  - rewrite (bind_ok (lift_result (Ok ())) _ s tt eq_refl). cbn [res st evs lift_result ret].
    rewrite after_nil. cbn in Hlen. rewrite (IH image_ids) by lia. done.
  - by rewrite (bind_raise (lift_result (Raise e)) _ s e eq_refl).
Qed.

Lemma run_sequential_spec rs simulation_size model_ts image_ids :
  ∀ s, let o := run_sequential rs image_ids simulation_size model_ts s in
  res o = result_of_failure (first_failure (runs (evs o)))
  ∧ dispatched (evs o) `prefix_of` image_ids
  ∧ (res o = Ok tt → dispatched (evs o) = image_ids)
  ∧ Forall (dispatch_event simulation_size model_ts) (evs o).
Proof.
  induction image_ids as [|image_id rest IH]; intros s; cbn zeta.
  - cbn. split_and!; auto.
  - cbn [run_sequential].
    rewrite (bind_ok (call_run_scoring rs image_id simulation_size model_ts) _ s _ eq_refl).
    cbn [res st evs call_run_scoring].
    set (o1 := rs image_id simulation_size model_ts s).
    destruct (res o1) as [[]|e] eqn:Ho1.
    + rewrite (bind_ok (lift_result (Ok ())) _ _ tt eq_refl).
      cbn [res st evs lift_result ret]. rewrite after_nil.
      destruct (IH (st o1)) as (Hres & Hpre & Hall & Hev).
      unfold after. cbn [res st evs app].
      rewrite runs_cons_run, dispatched_cons_run. cbn [first_failure].
      split_and!.
      * exact Hres.
      * by apply prefix_cons.
      * intros Hok. f_equal. by apply Hall.
      * constructor; [by cbn | done].
    + rewrite (bind_raise (lift_result (Raise e)) _ _ e eq_refl).
      unfold after. cbn [res st evs app].
      rewrite runs_cons_run, dispatched_cons_run. cbn [first_failure result_of_failure].
      split_and!.
      * done.
      * apply prefix_cons, prefix_nil.
      * done.
      * constructor; [by cbn | done].
Qed.

Lemma dispatch_spec rs h self request s0 model_ts s :
  let o := dispatch rs h self request s0 model_ts s in
  res o = result_of_failure (first_failure (runs (evs o)))
  ∧ dispatched (evs o) `prefix_of` work_list self request s0 model_ts
  ∧ (uses_pool h self request s0 model_ts = true ∨ res o = Ok tt →
     dispatched (evs o) = work_list self request s0 model_ts)
  ∧ Forall (dispatch_event (effective_simulation_size self request) model_ts) (evs o).
Proof.
  cbn zeta. unfold dispatch.
  destruct (uses_pool h self request s0 model_ts) eqn:Hpool.
  - rewrite (bind_ok (emit _) _ s tt eq_refl). cbn [res st evs emit].
    destruct (submit_all_spec rs (effective_simulation_size self request) model_ts
                (work_list self request s0 model_ts) s) as (futures & Hres & Hruns & Hlen & Hev).
    rewrite (bind_ok _ _ s futures Hres).
    rewrite (await_all_spec (work_list self request s0 model_ts)) by done.
    unfold after, dispatched. cbn [res st evs app]. rewrite app_nil_r.
    change (runs (?e :: ?l)) with (runs l). rewrite Hruns.
    repeat split.
    + rewrite fst_zip by lia. done.
    + intros _. rewrite fst_zip by lia. done.
    + constructor; [by cbn | done].
  - destruct (run_sequential_spec rs (effective_simulation_size self request) model_ts
                (work_list self request s0 model_ts) s) as (Hres & Hpre & Hall & Hev).
    repeat split; try done. intros [? | Hok]; [done | by apply Hall].
Qed.

Lemma runs_prologue self request s : runs (prologue self request s) = [].
Proof.
  unfold prologue. destruct (requested_simulation_size self request <? 2); reflexivity.
Qed.

(** A run of the orchestrator, as a whole: the prologue, then the events
    [body] of the dispatch; if a call of the per-image routine raised, the
    first such exception ends the run; otherwise the summary is logged and
    returned. *)
Lemma score_with_spec rs h self request s :
  let model_ts := model_version_tag h (get_path (infer_task self)) in
  let o := score_with rs h self request s in
  ∃ body,
    Forall (dispatch_event (effective_simulation_size self request) model_ts) body
    ∧ dispatched body `prefix_of` work_list self request s model_ts
    ∧ (uses_pool h self request s model_ts = true ∨ first_failure (runs body) = None →
       dispatched body = work_list self request s model_ts)
    ∧ runs (evs o) = runs body
    ∧ match first_failure (runs body) with
      | Some e => res o = Raise e ∧ evs o = prologue self request s ++ body
      | None =>
          let summary := run_summary h self request s model_ts
                           (start_reading h s) (end_reading h o) in
          res o = Ok summary
          ∧ evs o = prologue self request s ++ body ++ [ELogSummary summary; EClearCache]
      end.
Proof.
  intros model_ts o. subst o. rewrite score_with_unfold. fold model_ts.
  set (d := dispatch rs h self request s model_ts (tick s)).
  destruct (dispatch_spec rs h self request s model_ts (tick s)) as (Hres & Hpre & Hall & Hev).
  fold d in Hres, Hpre, Hall, Hev.
  exists (evs d). split; [done |]. split; [done |].
  destruct (first_failure (runs (evs d))) as [e|] eqn:Hfail; cbn in Hres; rewrite Hres.
  - split; [intros [? | [=]]; auto |].
    cbn [res st evs]. by rewrite runs_app, runs_prologue.
  - split; [intros _; auto |].
    cbn [res st evs]. rewrite !runs_app, runs_prologue. cbn. rewrite app_nil_r.
    split; [done |]. unfold end_reading, start_reading. cbn [st tick clock_reads Nat.pred].
    done.
Qed.

Lemma len_py_slice_to_le {A} n (l : list A) : len (py_slice_to n l) ≤ len l.
Proof.
  unfold py_slice_to, len. destruct (n <? 0); rewrite length_take; lia.
Qed.

Lemma py_slice_to_all {A} n (l : list A) : len l ≤ n → py_slice_to n l = l.
Proof.
  unfold py_slice_to, len. intros Hn.
  destruct (n <? 0) eqn:Hneg; [lia |]. apply take_ge. lia.
Qed.

Lemma len_skipped_eligible s model_ts :
  len (skipped_images s model_ts) + len (eligible s model_ts) = len (unlabeled s).
Proof.
  unfold skipped_images, eligible, len.
  induction (unlabeled s) as [|image_id l IH]; [done |].
  rewrite !filter_cons.
  destruct (is_skipped s model_ts image_id);
    [rewrite decide_True by done; rewrite decide_False by done
    |rewrite decide_False by done; rewrite decide_True by done];
    cbn [length]; lia.
Qed.

Lemma len_work_list_le self request s model_ts :
  len (work_list self request s model_ts) ≤ len (eligible s model_ts).
Proof.
  unfold work_list. destruct (_ =? 0); [lia | apply len_py_slice_to_le].
Qed.

Lemma round_half_even_nonneg q : (0 <= q)%Q → 0 ≤ round_half_even q.
Proof.
  intros Hq. unfold round_half_even.
  assert (0 ≤ Qfloor q) as Hf by (change 0 with (Qfloor 0); by apply Qfloor_resp_le).
  destruct (Qcompare _ _); [destruct (Z.even _) | |]; lia.
Qed.

Lemma py_round_nonneg q ndigits : (0 <= q)%Q → (0 <= py_round q ndigits)%Q.
Proof.
  intros Hq. unfold py_round, Qle. cbn [Qnum Qden]. rewrite Z.mul_1_r.
  change (0 * _) with 0. apply round_half_even_nonneg.
  apply Qmult_le_0_compat; [done |].
  change 0%Q with (inject_Z 0). rewrite <- Zle_Qle. apply Z.pow_nonneg. lia.
Qed.

(** A returned summary is the summary of the run, and the run called the
    per-image routine on the whole work list. *)
Lemma score_with_summary rs h self request s summary :
  let model_ts := model_version_tag h (get_path (infer_task self)) in
  let o := score_with rs h self request s in
  res o = Ok summary →
  summary = run_summary h self request s model_ts (start_reading h s) (end_reading h o)
  ∧ dispatched (evs o) = work_list self request s model_ts.
Proof.
  intros model_ts o Hok.
  destruct (score_with_spec rs h self request s) as (body & _ & _ & Hall & Hruns & Hcase).
  fold model_ts o in Hall, Hruns, Hcase.
  destruct (first_failure (runs body)) as [e|]; [destruct Hcase; congruence |].
  cbn zeta in Hcase. destruct Hcase as (Hres & _).
  rewrite Hres in Hok. injection Hok as <-. split; [done |].
  unfold dispatched at 1. rewrite Hruns. fold (dispatched body). auto.
Qed.

(** C2 (amended): for every run that returns a summary, [total] is the
    number of unlabeled images, [skipped] the number of images the filter
    skipped and [executed] the length of the work list, so that
    [skipped + executed <= total], with equality when [max_samples] is 0 or
    is at least the number of images the filter kept (nothing is cut off);
    and [latency >= 0] when the clock reading at the end of the run is not
    before the one at its start. *)
Theorem score_summary_counts rs h self request s summary :
  let model_ts := model_version_tag h (get_path (infer_task self)) in
  let o := score_with rs h self request s in
  res o = Ok summary →
  total summary = len (unlabeled s)
  ∧ skipped summary = len (skipped_images s model_ts)
  ∧ executed summary = len (dispatched (evs o))
  ∧ skipped summary + executed summary ≤ total summary
  ∧ (requested_max_samples self request = 0
     ∨ len (eligible s model_ts) ≤ requested_max_samples self request →
     skipped summary + executed summary = total summary)
  ∧ ((start_reading h s <= end_reading h o)%Q → (0 <= latency summary)%Q).
Proof.
  intros model_ts o Hok.
  destruct (score_with_summary rs h self request s summary Hok) as (-> & Hd).
  subst model_ts o. cbn [total skipped executed latency run_summary].
  set (model_ts := model_version_tag h (get_path (infer_task self))) in *.
  pose proof (len_skipped_eligible s model_ts) as Hpart.
  pose proof (len_work_list_le self request s model_ts) as Hle.
  split_and!; try done.
  - by rewrite Hd.
  - lia.
  - intros Hfull. unfold work_list.
    destruct (requested_max_samples self request =? 0) eqn:Hzero; [lia |].
    destruct Hfull as [Hz | Hge]; [lia |]. rewrite py_slice_to_all by done. lia.
  - intros Hclock. apply py_round_nonneg. by apply Qle_minus_iff in Hclock.
Qed.

Lemma first_failure_None_iff l :
  first_failure l = None ↔ ∀ image_id e, (image_id, Raise e) ∉ l.
Proof.
  induction l as [|[image_id [[]|e]] l IH]; cbn.
  - split; [intros _ ? ? Hin; by apply elem_of_nil in Hin | done].
  - rewrite IH. split; intros Hno i e Hin.
    + apply elem_of_cons in Hin as [[=] | Hin]. by eapply Hno.
    + eapply Hno. apply elem_of_cons. right. exact Hin.
  - split; [done |]. intros Hno. exfalso. eapply Hno. apply elem_of_cons. by left.
Qed.

(** The calls a run records are calls on a prefix of the work list, and on
    all of it when the run goes through the pool or does not raise. *)
Lemma score_with_dispatched rs h self request s :
  let model_ts := model_version_tag h (get_path (infer_task self)) in
  let o := score_with rs h self request s in
  dispatched (evs o) `prefix_of` work_list self request s model_ts
  ∧ (uses_pool h self request s model_ts = true ∨ is_raise (res o) = false →
     dispatched (evs o) = work_list self request s model_ts).
Proof.
  intros model_ts o.
  destruct (score_with_spec rs h self request s) as (body & _ & Hpre & Hall & Hruns & Hcase).
  fold model_ts o in Hpre, Hall, Hruns, Hcase.
  unfold dispatched in *. rewrite Hruns. split; [done |].
  intros [Hpool | Hok]; [auto |]. apply Hall. right.
  destruct (first_failure (runs body)); [| done].
  destruct Hcase as (Hres & _). rewrite Hres in Hok. done.
Qed.

Lemma elem_of_work_list self request s model_ts image_id :
  image_id ∈ work_list self request s model_ts → image_id ∈ eligible s model_ts.
Proof.
  unfold work_list, py_slice_to. intros Hin.
  destruct (_ =? 0); [done |].
  destruct (_ <? 0); eapply elem_of_sublist; eauto using sublist_take.
Qed.

Lemma elem_of_eligible s model_ts image_id :
  image_id ∈ eligible s model_ts
  ↔ image_id ∈ unlabeled s ∧ is_skipped s model_ts image_id = false.
Proof. unfold eligible. rewrite list_elem_of_filter. tauto. Qed.

(** The arguments of every recorded call of the per-image routine. *)
Lemma score_with_run_args rs h self request s e a :
  let o := score_with rs h self request s in
  e ∈ evs o → run_args e = Some a →
  a = (effective_simulation_size self request,
       model_version_tag h (get_path (infer_task self))).
Proof.
  intros o Hin Ha.
  destruct (score_with_spec rs h self request s) as (body & Hev & _ & _ & _ & Hcase).
  fold o in Hcase.
  assert (e ∈ body) as Hbody.
  { destruct (first_failure (runs body)); cbn zeta in Hcase;
      destruct Hcase as (_ & Hevs); rewrite Hevs in Hin;
      rewrite !elem_of_app in Hin; destruct Hin as [Hin | Hin].
    - unfold prologue in Hin. destruct (_ <? 2); cbn in Hin;
        (repeat (apply elem_of_cons in Hin as [-> | Hin]; [done |]));
        by apply elem_of_nil in Hin.
    - done.
    - unfold prologue in Hin. destruct (_ <? 2); cbn in Hin;
        (repeat (apply elem_of_cons in Hin as [-> | Hin]; [done |]));
        by apply elem_of_nil in Hin.
    - destruct Hin as [Hin | Hin]; [done |].
      (repeat (apply elem_of_cons in Hin as [-> | Hin]; [done |]));
        by apply elem_of_nil in Hin. }
  rewrite Forall_forall in Hev. specialize (Hev e Hbody).
  destruct e; try done. cbn in Hev, Ha. destruct Hev as [-> ->]. congruence.
Qed.

(** C3 (amended): the filter reads [image_info.get("epistemic_ts", 0)] and
    skips an image exactly when that value [==] the model version tag: its
    stored timestamp equals the tag, or it has none and the tag is 0.  The
    skipped images are counted in [skipped] and never dispatched; an image
    whose stored timestamp differs from the tag, or is absent while the tag
    is not 0, is kept, and with [max_samples = 0] every kept image is
    dispatched by a run that goes through the pool or returns. *)
Theorem skip_rule rs h self request s :
  let model_ts := model_version_tag h (get_path (infer_task self)) in
  let o := score_with rs h self request s in
  (∀ image_id,
     is_skipped s model_ts image_id = true
     ↔ (∃ v, stored_ts s image_id = Some v ∧ py_eq_int v model_ts = true)
       ∨ (stored_ts s image_id = None ∧ model_ts = 0))
  ∧ (∀ image_id,
       image_id ∈ eligible s model_ts
       ↔ image_id ∈ unlabeled s ∧ is_skipped s model_ts image_id = false)
  ∧ (∀ image_id,
       image_id ∈ dispatched (evs o) →
       image_id ∈ unlabeled s ∧ is_skipped s model_ts image_id = false)
  ∧ (∀ summary, res o = Ok summary → skipped summary = len (skipped_images s model_ts))
  ∧ (requested_max_samples self request = 0 →
     uses_pool h self request s model_ts = true ∨ is_raise (res o) = false →
     dispatched (evs o) = eligible s model_ts).
Proof.
  intros model_ts o.
  destruct (score_with_dispatched rs h self request s) as (Hpre & Hall).
  fold model_ts o in Hpre, Hall.
  split_and!.
  - intros image_id. unfold is_skipped.
    destruct (stored_ts s image_id) as [v|]; cbn [default].
    + split; [intros Hv; left; eauto | intros [(v' & [= <-] & Hv) | [[=] _]]; done].
    + change (py_eq_int (PInt 0) model_ts) with (0 =? model_ts). rewrite Z.eqb_eq.
      split; [intros Hz; right; done | intros [(v' & [=] & _) | [_ ->]]; done].
  - apply elem_of_eligible.
  - intros image_id Hin. apply elem_of_eligible. eapply elem_of_work_list.
    eapply elem_of_prefix; eauto.
  - intros summary Hok.
    by destruct (score_with_summary rs h self request s summary Hok) as (-> & _).
  - intros Hzero Hcase. rewrite (Hall Hcase). unfold work_list. by rewrite Hzero.
Qed.

(** C5 (amended): the work list is the whole filtered list when
    [max_samples] is 0, its first M images (all of them if there are fewer)
    when [max_samples] is M > 0, and, as Python slices, all but its last |M|
    images when M < 0.  The per-image routine is called on the images of the
    work list in order: on all of them when the run goes through the pool,
    and whenever the run returns a summary, which then reports
    [executed] = the length of the work list. *)
Theorem work_list_truncation rs h self request s :
  let model_ts := model_version_tag h (get_path (infer_task self)) in
  let o := score_with rs h self request s in
  let M := requested_max_samples self request in
  let kept := eligible s model_ts in
  let image_ids := work_list self request s model_ts in
  (M = 0 → image_ids = kept)
  ∧ (0 < M → image_ids = take (Z.to_nat M) kept)
  ∧ (M < 0 → image_ids = take (length kept - Z.to_nat (- M)) kept)
  ∧ dispatched (evs o) `prefix_of` image_ids
  ∧ (uses_pool h self request s model_ts = true → dispatched (evs o) = image_ids)
  ∧ (∀ summary, res o = Ok summary →
       dispatched (evs o) = image_ids ∧ executed summary = len image_ids).
Proof.
  intros model_ts o M kept image_ids.
  destruct (score_with_dispatched rs h self request s) as (Hpre & Hall).
  fold model_ts o image_ids in Hpre, Hall.
  subst image_ids. unfold work_list, py_slice_to. fold M kept.
  split_and!.
  - intros ->. done.
  - intros HM. destruct (M =? 0) eqn:Hz; [lia |]. destruct (M <? 0) eqn:Hn; [lia | done].
  - intros HM. destruct (M =? 0) eqn:Hz; [lia |]. destruct (M <? 0) eqn:Hn; [| lia].
    f_equal. lia.
  - exact Hpre.
  - intros Hpool. apply Hall. by left.
  - intros summary Hok.
    by destruct (score_with_summary rs h self request s summary Hok) as (-> & Hd).
Qed.

Lemma dispatch_with_simulation_size rs h self request s0 model_ts :
  requested_simulation_size self request < 2 →
  dispatch rs h self (with_simulation_size request 2) s0 model_ts
  = dispatch rs h self request s0 model_ts.
Proof.
  intros Hlt. unfold dispatch, uses_pool, work_list, effective_simulation_size,
    effective_max_workers, device_ids, requested_max_samples, requested_simulation_size in *.
  cbn [with_simulation_size req_max_samples req_simulation_size req_max_workers
       req_multi_gpu req_gpus req_device default].
  change (2 <? 2) with false. cbn iota.
  by replace (default (simulation_size self) (req_simulation_size request) <? 2) with true
    by (symmetry; apply Z.ltb_lt; exact Hlt).
Qed.

Lemma dispatch_event_not_warning simulation_size model_ts l :
  Forall (dispatch_event simulation_size model_ts) l →
  Forall (λ e, is_warning e = false) l.
Proof. intros Hl. eapply Forall_impl; [exact Hl | by intros []]. Qed.

Lemma dispatch_event_not_summary simulation_size model_ts l :
  Forall (dispatch_event simulation_size model_ts) l →
  Forall (λ e, is_summary_log e = false) l.
Proof. intros Hl. eapply Forall_impl; [exact Hl | by intros []]. Qed.

(** C6: when the simulation size the request resolves to is below 2, the
    run is the run of the same request with simulation size 2, but for one
    warning: the trace starts with the start line, the cache reset and the
    warning, which so comes before every call of the per-image routine (and
    of the inference task); no other warning follows; the result and the
    final store are those of the run with simulation size 2 (the correction
    raises nothing); and every call of the per-image routine is made with
    simulation size 2. *)
Theorem simulation_size_floor rs h self request s :
  requested_simulation_size self request < 2 →
  let o := score_with rs h self request s in
  let o2 := score_with rs h self (with_simulation_size request 2) s in
  (∃ rest, evs o = [ELogStart; EClearCache; EWarnSimulationSize] ++ rest
           ∧ evs o2 = [ELogStart; EClearCache] ++ rest
           ∧ Forall (λ e, is_warning e = false) rest)
  ∧ length (filter (λ e, is_warning e = true) (evs o)) = 1%nat
  ∧ res o = res o2
  ∧ st o = st o2
  ∧ (∀ e a, e ∈ evs o → run_args e = Some a → a.1 = 2).
Proof.
  intros Hlt o o2.
  assert (∃ rest, evs o = [ELogStart; EClearCache; EWarnSimulationSize] ++ rest
                  ∧ evs o2 = [ELogStart; EClearCache] ++ rest
                  ∧ Forall (λ e, is_warning e = false) rest
                  ∧ res o = res o2 ∧ st o = st o2) as (rest & Ho & Ho2 & Hrest & Hres & Hst).
  { subst o o2. rewrite !score_with_unfold.
    rewrite dispatch_with_simulation_size by done.
    set (model_ts := model_version_tag h (get_path (infer_task self))).
    pose proof (dispatch_spec rs h self request s model_ts (tick s)) as (_ & _ & _ & Hev).
    set (d := dispatch rs h self request s model_ts (tick s)) in *.
    unfold prologue.
    replace (requested_simulation_size self request <? 2) with true
      by (symmetry; by apply Z.ltb_lt).
    change (requested_simulation_size self (with_simulation_size request 2) <? 2)
      with false.
    change (requested_max_samples self (with_simulation_size request 2))
      with (requested_max_samples self request).
    change (run_summary h self (with_simulation_size request 2))
      with (run_summary h self request).
    apply dispatch_event_not_warning in Hev.
    destruct (res d) as [[]|e]; cbn [res st evs app]; eexists; split_and!; try reflexivity.
    - constructor; [done |]. apply Forall_app. split; [done |]. by repeat constructor.
    - constructor; [done |]. done. }
  split_and!.
  - eauto.
  - rewrite Ho. cbn [app].
    rewrite filter_cons_False by done. rewrite filter_cons_False by done.
    rewrite filter_cons_True by done.
    replace (filter (λ e, is_warning e = true) rest) with (@nil event); [done |].
    symmetry. clear -Hrest. induction Hrest as [|e l He Hl IH]; [done |].
    rewrite filter_cons_False by congruence. done.
  - done.
  - done.
  - intros e a Hin Ha.
    rewrite (score_with_run_args rs h self request s e a Hin Ha). cbn.
    unfold effective_simulation_size.
    by replace (requested_simulation_size self request <? 2) with true
      by (symmetry; by apply Z.ltb_lt).
Qed.



(** C8: when a call of the per-image routine raises, the run returns no
    summary: it raises the exception of the first call that failed, in the
    order of dispatch, and logs no summary.  When the run goes through the
    pool, every image of the work list was submitted and ran to its end
    (each one is recorded with its result) before the exception surfaces;
    in every case the calls recorded are calls on the first images of the
    work list, in order. *)
Theorem worker_failure_propagation rs h self request s image_id sim ts tevs e :
  let model_ts := model_version_tag h (get_path (infer_task self)) in
  let o := score_with rs h self request s in
  ERunScoring image_id sim ts tevs (Raise e) ∈ evs o →
  (∃ e', res o = Raise e' ∧ first_failure (runs (evs o)) = Some e')
  ∧ Forall (λ ev, is_summary_log ev = false) (evs o)
  ∧ dispatched (evs o) `prefix_of` work_list self request s model_ts
  ∧ (uses_pool h self request s model_ts = true →
     dispatched (evs o) = work_list self request s model_ts).
Proof.
  intros model_ts o Hin.
  assert ((image_id, Raise e) ∈ runs (evs o)) as Hrun.
  { unfold runs. apply list_elem_of_omap. eexists. split; [exact Hin | done]. }
  destruct (score_with_spec rs h self request s) as (body & Hev & _ & _ & Hruns & Hcase).
  fold model_ts o in Hev, Hruns, Hcase.
  destruct (score_with_dispatched rs h self request s) as (Hpre & Hall).
  fold model_ts o in Hpre, Hall.
  rewrite Hruns in *.
  destruct (first_failure (runs body)) as [e'|] eqn:Hfail.
  - destruct Hcase as (Hres & Hevs). split_and!.
    + eauto.
    + rewrite Hevs. apply Forall_app. split.
      * unfold prologue. destruct (_ <? 2); by repeat constructor.
      * by eapply dispatch_event_not_summary.
    + done.
    + intros Hpool. apply Hall. by left.
  - exfalso. eapply first_failure_None_iff in Hfail. by apply Hfail in Hrun.
Qed.

(** ** Further properties of the orchestrator *)

Lemma submit_all_facts rs simulation_size model_ts image_ids :
  ∀ s, let o := submit_all rs image_ids simulation_size model_ts s in
  Forall (run_by rs) (evs o)
  ∧ Forall (λ e, is_Some (run_of e)) (evs o)
  ∧ (keeps_datastore rs →
     image_info (st o) = image_info s ∧ unlabeled (st o) = unlabeled s).
Proof.
  induction image_ids as [|image_id rest IH]; intros s; cbn zeta.
  - cbn. split_and!; auto.
  - cbn [submit_all].
    rewrite (bind_ok (call_run_scoring rs image_id simulation_size model_ts) _ s _ eq_refl).
    cbn [res st evs call_run_scoring].
    set (s1 := st (rs image_id simulation_size model_ts s)).
    destruct (submit_all_spec rs simulation_size model_ts rest s1) as (futures & Hres & _).
    destruct (IH s1) as (Hby & Hrun & Hkeep).
    rewrite (bind_ok _ _ s1 futures Hres). cbn [res st evs ret after].
    rewrite app_nil_r. cbn [app]. split_and!.
    + constructor; [cbn; eauto | done].
    + constructor; [by cbn; eauto | done].
    + intros Hrs. destruct (Hkeep Hrs) as (Hinfo & Hunl).
      destruct (Hrs image_id simulation_size model_ts s) as (Hinfo1 & Hunl1).
      fold s1 in Hinfo1, Hunl1. split; congruence.
Qed.

Lemma run_sequential_facts rs simulation_size model_ts image_ids :
  ∀ s, let o := run_sequential rs image_ids simulation_size model_ts s in
  Forall (run_by rs) (evs o)
  ∧ Forall (λ e, is_Some (run_of e)) (evs o)
  ∧ (keeps_datastore rs →
     image_info (st o) = image_info s ∧ unlabeled (st o) = unlabeled s).
Proof.
  induction image_ids as [|image_id rest IH]; intros s; cbn zeta.
  - cbn. split_and!; auto.
  - cbn [run_sequential].
    rewrite (bind_ok (call_run_scoring rs image_id simulation_size model_ts) _ s _ eq_refl).
    cbn [res st evs call_run_scoring].
    pose proof (λ Hrs : keeps_datastore rs, Hrs image_id simulation_size model_ts s) as Hkeep1.
    cbn zeta in Hkeep1.
    assert (run_by rs (ERunScoring image_id simulation_size model_ts
                         (evs (rs image_id simulation_size model_ts s))
                         (res (rs image_id simulation_size model_ts s)))) as Hby1
      by (cbn; eauto).
    set (o1 := rs image_id simulation_size model_ts s) in *.
    destruct (res o1) as [[]|e] eqn:Ho1.
    + rewrite (bind_ok (lift_result (Ok ())) _ _ tt eq_refl).
      cbn [res st evs lift_result ret]. rewrite after_nil.
      destruct (IH (st o1)) as (Hby & Hrun & Hkeep).
      unfold after. cbn [res st evs app]. split_and!.
      * by constructor.
      * constructor; [by cbn; eauto | done].
      * intros Hrs. destruct (Hkeep Hrs), (Hkeep1 Hrs). split; congruence.
    + rewrite (bind_raise (lift_result (Raise e)) _ _ e eq_refl).
      unfold after. cbn [res st evs app]. split_and!.
      * by constructor.
      * constructor; [by cbn; eauto | done].
      * intros Hrs. by apply Hkeep1.
Qed.

Lemma dispatch_facts rs h self request s0 model_ts s :
  let o := dispatch rs h self request s0 model_ts s in
  Forall (run_by rs) (evs o)
  ∧ (keeps_datastore rs →
     image_info (st o) = image_info s ∧ unlabeled (st o) = unlabeled s)
  ∧ (if uses_pool h self request s0 model_ts
     then ∃ rest, evs o = ELogPool (default false (req_multi_gpu request))
                            (device_ids h request) (effective_max_workers h request) :: rest
                  ∧ Forall (λ e, is_Some (run_of e)) rest
     else Forall (λ e, is_Some (run_of e)) (evs o)).
Proof.
  cbn zeta. unfold dispatch.
  destruct (uses_pool h self request s0 model_ts) eqn:Hpool.
  - rewrite (bind_ok (emit _) _ s tt eq_refl). cbn [res st evs emit].
    destruct (submit_all_spec rs (effective_simulation_size self request) model_ts
                (work_list self request s0 model_ts) s) as (futures & Hres & _ & Hlen & _).
    destruct (submit_all_facts rs (effective_simulation_size self request) model_ts
                (work_list self request s0 model_ts) s) as (Hby & Hrun & Hkeep).
    rewrite (bind_ok _ _ s futures Hres).
    rewrite (await_all_spec (work_list self request s0 model_ts)) by done.
    unfold after. cbn [res st evs app]. rewrite app_nil_r. split_and!.
    + constructor; [by cbn | done].
    + done.
    + eauto.
  - destruct (run_sequential_facts rs (effective_simulation_size self request) model_ts
                (work_list self request s0 model_ts) s) as (Hby & Hrun & Hkeep).
    split_and!; done.
Qed.

Lemma prologue_run_by rs self request s : Forall (run_by rs) (prologue self request s).
Proof.
  unfold prologue. destruct (_ <? 2); repeat constructor.
Qed.

(** The recorded calls of a run are calls of the routine it was given. *)
Lemma score_with_run_by rs h self request s :
  Forall (run_by rs) (evs (score_with rs h self request s)).
Proof.
  rewrite score_with_unfold.
  set (model_ts := model_version_tag h (get_path (infer_task self))).
  destruct (dispatch_facts rs h self request s model_ts (tick s)) as (Hby & _).
  pose proof (prologue_run_by rs self request s) as Hpro.
  destruct (res (dispatch rs h self request s model_ts (tick s))) as [[]|e];
    cbn [res st evs]; rewrite ?Forall_app; split_and?; try done.
  by repeat constructor.
Qed.

(** With a per-image routine that always raises, a run returns exactly
    when its work list is empty. *)
Lemma score_with_always_raising rs h self request s :
  (∀ image_id simulation_size model_ts, always_raises (rs image_id simulation_size model_ts)) →
  let model_ts := model_version_tag h (get_path (infer_task self)) in
  is_raise (res (score_with rs h self request s)) = false
  ↔ work_list self request s model_ts = [].
Proof.
  intros Hrs model_ts.
  pose proof (score_with_run_by rs h self request s) as Hby.
  destruct (score_with_spec rs h self request s) as (body & _ & Hpre & Hall & Hruns & Hcase).
  fold model_ts in Hpre, Hall, Hruns, Hcase.
  set (o := score_with rs h self request s) in *.
  assert (∀ image_id r, (image_id, r) ∈ runs body → is_raise r = true) as Hraise.
  { intros image_id r Hin. rewrite <- Hruns in Hin.
    apply list_elem_of_omap in Hin as (e & He & Hrun).
    rewrite Forall_forall in Hby. specialize (Hby e He).
    destruct e; try done. cbn in Hrun. injection Hrun as <- <-.
    destruct Hby as (s' & _ & ->). apply Hrs. }
  destruct (first_failure (runs body)) as [e|] eqn:Hfail.
  - destruct Hcase as (Hres & _). rewrite Hres. cbn. split; [done |].
    intros Hnil. rewrite Hnil in Hpre. apply prefix_nil_inv in Hpre.
    unfold dispatched in Hpre. apply fmap_nil_inv in Hpre. rewrite Hpre in Hfail. done.
  - cbn zeta in Hcase. destruct Hcase as (Hres & _). rewrite Hres. cbn.
    split; [intros _ | done].
    rewrite <- (Hall (or_intror eq_refl)). unfold dispatched.
    destruct (runs body) as [|[image_id r] l] eqn:Hbody; [done |].
    exfalso. pose proof (Hraise image_id r ltac:(left)) as Hr.
    destruct r as [[]|e]; [done |].
    rewrite first_failure_None_iff in Hfail. eapply Hfail. by left.
Qed.

(** X1: with the class's own [run_scoring], [score] returns a summary
    exactly when there is nothing to score: the work list is empty (every
    unlabeled image is skipped or cut off by [max_samples]).  With any image
    on the work list the run raises. *)
Theorem score_returns_iff_nothing_to_score h self request s :
  let model_ts := model_version_tag h (get_path (infer_task self)) in
  (∃ summary, res (score h self request s) = Ok summary)
  ↔ work_list self request s model_ts = [].
Proof.
  intros model_ts.
  pose proof (score_with_always_raising (run_scoring h self) h self request s
                (λ i n t, run_scoring_always_raises h self i n t)) as Hiff.
  cbn zeta in Hiff. fold model_ts in Hiff. rewrite <- Hiff.
  unfold score. destruct (res (score_with _ _ _ _ _)); cbn.
  - split; eauto.
  - split; [intros (? & [=]) | done].
Qed.

Lemma filter_bool_none {A} (f : A → bool) (l : list A) :
  Forall (λ x, f x = false) l → filter (λ x, f x = true) l = [].
Proof.
  induction 1 as [|x l Hx Hl IH]; [done |].
  rewrite filter_cons_False by congruence. done.
Qed.

Lemma score_with_keeps_datastore rs h self request s :
  keeps_datastore rs →
  image_info (st (score_with rs h self request s)) = image_info s
  ∧ unlabeled (st (score_with rs h self request s)) = unlabeled s.
Proof.
  intros Hrs. rewrite score_with_unfold.
  set (model_ts := model_version_tag h (get_path (infer_task self))).
  destruct (dispatch_facts rs h self request s model_ts (tick s)) as (_ & Hkeep & _).
  destruct (Hkeep Hrs) as (Hinfo & Hunl).
  destruct (res (dispatch rs h self request s model_ts (tick s))) as [[]|e];
    cbn [res st evs tick image_info unlabeled] in *; done.
Qed.

(** X2: with the class's own [run_scoring], a run of [score] leaves the
    datastore as it found it, whatever the request: the metadata of every
    image and the list of unlabeled images are unchanged, and no recorded
    call of the per-image routine made an update. *)
Theorem score_keeps_datastore h self request s :
  let o := score h self request s in
  image_info (st o) = image_info s
  ∧ unlabeled (st o) = unlabeled s
  ∧ Forall (λ e, Forall (λ te, is_update te = false) (task_events e)) (evs o).
Proof.
  cbn zeta. unfold score.
  assert (keeps_datastore (run_scoring h self)) as Hrs.
  { intros image_id simulation_size model_ts s'. cbn zeta.
    by destruct (run_scoring_quiet h self image_id simulation_size model_ts s')
      as (_ & ? & ?). }
  destruct (score_with_keeps_datastore _ h self request s Hrs) as (Hinfo & Hunl).
  split_and!; [done | done |].
  eapply Forall_impl; [apply score_with_run_by |].
  intros [| | | | | image_id sim ts tevs r |] Hby; try (by constructor).
  destruct Hby as (s' & -> & _). cbn [task_events].
  by destruct (run_scoring_quiet h self image_id sim ts s') as (? & _).
Qed.

(** X3: the cache of the inference task is cleared right after the start
    line of every run, and once more at the very end of a run that returns
    its summary; a run that raises does not clear it again (the second
    [clear_cache] is not in a [finally]). *)
Theorem clear_cache_calls rs h self request s :
  let o := score_with rs h self request s in
  evs o !! 1%nat = Some EClearCache
  ∧ length (filter (λ e, is_clear_cache e = true) (evs o))
    = (if is_raise (res o) then 1 else 2)%nat
  ∧ (is_raise (res o) = false → last (evs o) = Some EClearCache).
Proof.
  cbn zeta.
  destruct (score_with_spec rs h self request s) as (body & Hev & _ & _ & _ & Hcase).
  assert (filter (λ e, is_clear_cache e = true) body = []) as Hbody.
  { apply filter_bool_none. eapply Forall_impl; [exact Hev |]. by intros []. }
  assert (filter (λ e, is_clear_cache e = true) (prologue self request s) = [EClearCache])
    as Hpro by (unfold prologue; by destruct (_ <? 2)).
  assert (∀ l, (prologue self request s ++ l) !! 1%nat = Some EClearCache) as Hsnd
    by (intros l; unfold prologue; by destruct (_ <? 2)).
  destruct (first_failure (runs body)); cbn zeta in Hcase;
    destruct Hcase as (-> & ->); cbn [is_raise]; split_and!.
  - apply Hsnd.
  - by rewrite filter_app, Hpro, Hbody.
  - done.
  - apply Hsnd.
  - by rewrite !filter_app, Hpro, Hbody.
  - intros _. by rewrite !last_app.
Qed.

(** X4: on a host with at least one CPU, a run goes through the thread
    pool only with at least 2 images on its work list and with between 2
    and [cpu_count] workers: the log line of the pool carries the worker
    count of line 107 and the device list of line 104.  So a request with
    [max_workers = 1], a single-CPU host or a single image to score all
    give a sequential run. *)
Theorem pool_bounds rs h self request s multi_gpu devices max_workers :
  let model_ts := model_version_tag h (get_path (infer_task self)) in
  let o := score_with rs h self request s in
  1 ≤ cpu_count h →
  ELogPool multi_gpu devices max_workers ∈ evs o →
  uses_pool h self request s model_ts = true
  ∧ max_workers = effective_max_workers h request
  ∧ devices = device_ids h request
  ∧ 2 ≤ max_workers ≤ cpu_count h
  ∧ 2 ≤ len (work_list self request s model_ts).
Proof.
  intros model_ts o Hcpu Hin. subst o. rewrite score_with_unfold in Hin. fold model_ts in Hin.
  destruct (dispatch_facts rs h self request s model_ts (tick s)) as (_ & _ & Hshape).
  set (d := dispatch rs h self request s model_ts (tick s)) in *.
  assert (ELogPool multi_gpu devices max_workers ∈ evs d) as Hd.
  { destruct (res d) as [[]|e]; cbn [evs] in Hin; rewrite !elem_of_app in Hin;
      destruct Hin as [Hin | Hin]; try done.
    - unfold prologue in Hin. destruct (_ <? 2); cbn in Hin;
        (repeat (apply elem_of_cons in Hin as [[=] | Hin])); by apply elem_of_nil in Hin.
    - destruct Hin as [Hin | Hin]; [done |].
      (repeat (apply elem_of_cons in Hin as [[=] | Hin])); by apply elem_of_nil in Hin.
    - unfold prologue in Hin. destruct (_ <? 2); cbn in Hin;
        (repeat (apply elem_of_cons in Hin as [[=] | Hin])); by apply elem_of_nil in Hin. }
  destruct (uses_pool h self request s model_ts) eqn:Hpool.
  - destruct Hshape as (rest & Hevs & Hrest). rewrite Hevs in Hd.
    apply elem_of_cons in Hd as [[= -> -> ->] | Hd].
    + unfold uses_pool in Hpool. apply andb_true_iff in Hpool as (Hlen & Hw).
      apply Z.ltb_lt in Hlen.
      assert (2 ≤ effective_max_workers h request) as Hmw.
      { apply orb_true_iff in Hw as [Hz | Hw]; [| apply Z.ltb_lt in Hw; lia].
        apply Z.eqb_eq in Hz. unfold effective_max_workers in *.
        destruct (default 2 (req_max_workers request) =? 0) eqn:Hreq; [lia |].
        apply Z.eqb_neq in Hreq. lia. }
      split_and!; try done; try lia.
      unfold effective_max_workers. lia.
    + rewrite Forall_forall in Hrest. by destruct (Hrest _ Hd).
  - rewrite Forall_forall in Hshape. by destruct (Hshape _ Hd).
Qed.

Lemma dispatch_same_work rs h self request1 request2 s0 model_ts s :
  same_work request1 request2 →
  res (dispatch rs h self request1 s0 model_ts s) = res (dispatch rs h self request2 s0 model_ts s)
  ∧ st (dispatch rs h self request1 s0 model_ts s) = st (dispatch rs h self request2 s0 model_ts s)
  ∧ forget_devices <$> evs (dispatch rs h self request1 s0 model_ts s)
    = forget_devices <$> evs (dispatch rs h self request2 s0 model_ts s).
Proof.
  intros (Hsamples & Hsim & Hworkers).
  assert (work_list self request1 s0 model_ts = work_list self request2 s0 model_ts) as Hwork
    by (unfold work_list, requested_max_samples; by rewrite Hsamples).
  assert (effective_simulation_size self request1 = effective_simulation_size self request2)
    as Heff by (unfold effective_simulation_size, requested_simulation_size; by rewrite Hsim).
  assert (effective_max_workers h request1 = effective_max_workers h request2) as Hmw
    by (unfold effective_max_workers; by rewrite Hworkers).
  unfold dispatch, uses_pool. rewrite Hwork, Heff, Hmw.
  destruct (_ && _); [| done].
  rewrite !(bind_ok (emit _) _ s tt eq_refl). cbn [res st evs emit after].
  split_and!; done.
Qed.

(** X5: the device options of the request ([multi_gpu], [gpus],
    [device]) reach neither the per-image routine nor the inference
    request: two requests that agree on [max_samples], [simulation_size] and
    [max_workers] give the same result, the same final store and the same
    trace, but for what the log line of the pool says of the devices. *)
Theorem device_options_only_logged rs h self request1 request2 s :
  same_work request1 request2 →
  let o1 := score_with rs h self request1 s in
  let o2 := score_with rs h self request2 s in
  res o1 = res o2
  ∧ st o1 = st o2
  ∧ forget_devices <$> evs o1 = forget_devices <$> evs o2.
Proof.
  intros Hsame. cbn zeta. rewrite !score_with_unfold.
  set (model_ts := model_version_tag h (get_path (infer_task self))).
  destruct (dispatch_same_work rs h self request1 request2 s model_ts (tick s) Hsame)
    as (Hres & Hst & Hevs).
  destruct Hsame as (Hsamples & Hsim & Hworkers).
  assert (prologue self request1 s = prologue self request2 s) as Hpro
    by (unfold prologue, requested_simulation_size, requested_max_samples;
        by rewrite Hsamples, Hsim).
  assert (∀ t0 t1, run_summary h self request1 s model_ts t0 t1
                   = run_summary h self request2 s model_ts t0 t1) as Hsum
    by (intros; unfold run_summary, work_list, requested_max_samples; by rewrite Hsamples).
  rewrite <- Hres.
  destruct (res (dispatch rs h self request1 s model_ts (tick s))) as [[]|e];
    cbn [res st evs]; rewrite ?fmap_app, Hpro, Hevs, Hst, ?Hsum; done.
Qed.

Lemma run_sequential_shape rs simulation_size model_ts image_ids :
  ∀ s, let o := run_sequential rs image_ids simulation_size model_ts s in
  match res o with
  | Ok _ => runs (evs o) = (λ i, (i, Ok tt)) <$> image_ids
  | Raise e =>
      ∃ done_ids image_id rest,
        image_ids = done_ids ++ image_id :: rest
        ∧ runs (evs o) = ((λ i, (i, Ok tt)) <$> done_ids) ++ [(image_id, Raise e)]
  end.
Proof.
  induction image_ids as [|image_id rest IH]; intros s; cbn zeta; [done |].
  cbn [run_sequential].
  rewrite (bind_ok (call_run_scoring rs image_id simulation_size model_ts) _ s _ eq_refl).
  cbn [res st evs call_run_scoring].
  set (o1 := rs image_id simulation_size model_ts s).
  destruct (res o1) as [[]|e] eqn:Ho1.
  - rewrite (bind_ok (lift_result (Ok ())) _ _ tt eq_refl).
    cbn [res st evs lift_result ret]. rewrite after_nil.
    specialize (IH (st o1)). cbn zeta in IH.
    unfold after. cbn [res st evs app]. rewrite runs_cons_run.
    destruct (res (run_sequential rs rest simulation_size model_ts (st o1))) as [[]|e'].
    + by rewrite IH.
    + destruct IH as (done_ids & failed & rest' & -> & ->).
      by exists (image_id :: done_ids), failed, rest'.
  - rewrite (bind_raise (lift_result (Raise e)) _ _ e eq_refl).
    unfold after. cbn [res st evs app]. by exists [], image_id, rest.
Qed.

(** X8: a sequential run stops at the first call of the per-image routine
    that raises: the calls before it returned, it is the last call made, and
    the images after it on the work list are never dispatched (in a run
    through the pool they all are). *)
Theorem sequential_run_stops_at_failure rs h self request s e :
  let model_ts := model_version_tag h (get_path (infer_task self)) in
  let o := score_with rs h self request s in
  uses_pool h self request s model_ts = false →
  res o = Raise e →
  ∃ done_ids image_id rest,
    work_list self request s model_ts = done_ids ++ image_id :: rest
    ∧ runs (evs o) = ((λ i, (i, Ok tt)) <$> done_ids) ++ [(image_id, Raise e)]
    ∧ dispatched (evs o) = done_ids ++ [image_id].
Proof.
  intros model_ts o Hpool Hres. subst o. rewrite score_with_unfold in *. fold model_ts in Hres |- *.
  pose proof (run_sequential_shape rs (effective_simulation_size self request) model_ts
                (work_list self request s model_ts) (tick s)) as Hshape.
  cbn zeta in Hshape.
  assert (dispatch rs h self request s model_ts (tick s)
          = run_sequential rs (work_list self request s model_ts)
              (effective_simulation_size self request) model_ts (tick s)) as Hd
    by (unfold dispatch; by rewrite Hpool).
  rewrite Hd in *.
  destruct (res (run_sequential _ _ _ _ _)) as [[]|e']; cbn [res evs] in *; [done |].
  injection Hres as ->.
  destruct Hshape as (done_ids & image_id & rest & Hwork & Hruns).
  exists done_ids, image_id, rest.
  assert (runs (prologue self request s ++ evs (run_sequential rs
            (work_list self request s model_ts) (effective_simulation_size self request)
            model_ts (tick s)))
          = ((λ i, (i, Ok tt)) <$> done_ids) ++ [(image_id, Raise e)]) as Hall
    by (by rewrite runs_app, runs_prologue).
  split_and!; [done | done |].
  unfold dispatched. rewrite Hall, fmap_app, <- list_fmap_compose. cbn.
  by rewrite list_fmap_id.
Qed.

(** X14: the images are dispatched in the order the datastore enumerates
    them: the images a run calls the per-image routine on are a sublist of
    the unlabeled images (none is dispatched more often than it is listed,
    none out of turn), whether the run is sequential or goes through the
    pool. *)
Theorem dispatch_order rs h self request s :
  dispatched (evs (score_with rs h self request s)) `sublist_of` unlabeled s.
Proof.
  destruct (score_with_dispatched rs h self request s) as ((rest & Hpre) & _).
  set (model_ts := model_version_tag h (get_path (infer_task self))) in *.
  transitivity (work_list self request s model_ts).
  { rewrite Hpre. by apply sublist_inserts_r. }
  transitivity (eligible s model_ts).
  { unfold work_list, py_slice_to. destruct (_ =? 0); [done |].
    destruct (_ <? 0); apply sublist_take. }
  apply sublist_filter.
Qed.

(** ** Further properties of the per-image routine *)

Lemma count_infer_app l1 l2 : count_infer (l1 ++ l2) = (count_infer l1 + count_infer l2)%nat.
Proof. unfold count_infer. by rewrite filter_app, length_app. Qed.

Lemma scoring_iteration_infers self image_id image i accum s :
  let o := scoring_iteration self image_id image i accum s in
  count_infer (evs o) = 1%nat
  ∧ Forall (λ e, ∀ img, infer_image e = Some img → img = image) (evs o).
Proof.
  unfold scoring_iteration, bind, call_infer. cbn.
  assert (∀ img, Some image = Some img → img = image) as Himg by (by intros ? [= ->]).
  destruct (infer_call _ _ _) as [[|d]|e]; cbn.
  - split; [done |]. by repeat constructor.
  - destruct (d !! _) as [[p|]|]; cbn; (split; [done |]); by repeat constructor.
  - split; [done |]. by repeat constructor.
Qed.

Lemma scoring_loop_infers self image_id image range :
  ∀ accum pred s,
  let o := scoring_loop self image_id image range accum pred s in
  (count_infer (evs o) ≤ length range)%nat
  ∧ Forall (λ e, ∀ img, infer_image e = Some img → img = image) (evs o).
Proof.
  induction range as [|i range IH]; intros accum pred s; cbn zeta.
  - cbn. split; [lia | constructor].
  - cbn [scoring_loop length].
    destruct (scoring_iteration_infers self image_id image i accum s) as (Hone & Himg).
    destruct (res (scoring_iteration self image_id image i accum s)) as [r|e] eqn:Hit.
    + rewrite (bind_ok _ _ _ _ Hit). unfold after. cbn [res st evs].
      destruct (IH r.1 (Some r.2) (st (scoring_iteration self image_id image i accum s)))
        as (Hle & Himg').
      rewrite count_infer_app, Hone. split; [lia | by apply Forall_app].
    + rewrite (bind_raise _ _ _ _ Hit). cbn [res st evs]. rewrite Hone. split; [lia | done].
Qed.

Lemma count_infer_loop_events self image_id image range :
  ∀ call, count_infer (loop_events self image_id image call range) = length range.
Proof.
  induction range as [|i range IH]; intros call; [done |].
  cbn [loop_events length]. rewrite count_infer_app, IH.
  unfold iteration_events. by destruct (prediction_of _ _).
Qed.

(** X6: [run_scoring] calls the inference task at most [simulation_size]
    times, every time on the URI the datastore gives for the image (the
    ensemble is made of predictions of one image), and exactly
    [simulation_size] times when no call stops the loop. *)
Theorem run_scoring_inference_calls h self image_id simulation_size model_ts s :
  let o := run_scoring h self image_id simulation_size model_ts s in
  let image := image_uri s image_id in
  (count_infer (evs o) ≤ Z.to_nat simulation_size)%nat
  ∧ Forall (λ e, ∀ img, infer_image e = Some img → img = image) (evs o)
  ∧ ((∀ j, (j < Z.to_nat simulation_size)%nat →
           usable self (infer_call (infer_task self) (infer_calls s + j) image) = true) →
     count_infer (evs o) = Z.to_nat simulation_size).
Proof.
  cbn zeta.
  rewrite (proj2 (run_scoring_unfold h self image_id simulation_size model_ts s)).
  destruct (scoring_loop_infers self image_id (image_uri s image_id)
              (py_range simulation_size) [] None (tick s)) as (Hle & Himg).
  unfold py_range in *. rewrite length_seq in Hle. split_and!; [done | done |].
  intros Hus.
  edestruct (scoring_loop_complete self image_id (image_uri s image_id)
               (seq 0 (Z.to_nat simulation_size)) [] None (tick s)) as (_ & Hev & _).
  { rewrite length_seq. exact Hus. }
  rewrite Hev, count_infer_loop_events. apply length_seq.
Qed.

Lemma usable_failure_of self r : usable self r = true ↔ failure_of self r = None.
Proof.
  unfold usable, failure_of. destruct r as [[|d]|e]; [done | | done].
  by destruct (d !! _).
Qed.

Lemma scoring_iteration_fails self image_id image i accum s e :
  failure_of self (infer_call (infer_task self) (infer_calls s) image) = Some e →
  let o := scoring_iteration self image_id image i accum s in
  res o = Raise e ∧ evs o = [TInfer image].
Proof.
  unfold failure_of, scoring_iteration, bind, call_infer. cbn.
  destruct (infer_call _ _ _) as [[|d]|e']; cbn; [done | | by intros [= ->]].
  destruct (d !! _); [done |]. by intros [= <-].
Qed.

Lemma scoring_loop_stops self image_id image e k :
  ∀ range accum pred s,
  (k < length range)%nat →
  (∀ j, (j < k)%nat →
        usable self (infer_call (infer_task self) (infer_calls s + j) image) = true) →
  failure_of self (infer_call (infer_task self) (infer_calls s + k) image) = Some e →
  let o := scoring_loop self image_id image range accum pred s in
  res o = Raise e
  ∧ evs o = loop_events self image_id image (infer_calls s) (take k range) ++ [TInfer image].
Proof.
  induction k as [|k IH]; intros range accum pred s Hk Hus Hfail;
    (destruct range as [|i range]; [cbn in Hk; lia |]); cbn.
  - rewrite Nat.add_0_r in Hfail.
    destruct (scoring_iteration_fails self image_id image i accum s e Hfail) as (Hres & Hev).
    rewrite (bind_raise _ _ _ _ Hres). cbn [res st evs after]. by rewrite Hev.
  - pose proof (scoring_iteration_usable self image_id image i accum s) as Hit.
    rewrite <- (Nat.add_0_r (infer_calls s)) in Hit at 1.
    specialize (Hit (Hus 0%nat ltac:(lia))). cbn zeta in Hit.
    destruct Hit as (Hres & Hev & Hcalls & _).
    rewrite (bind_ok _ _ _ _ Hres). cbn [res st evs fst snd after].
    set (s1 := st (scoring_iteration self image_id image i accum s)) in *.
    edestruct (IH range) as (Hres' & Hev').
    { cbn in Hk. lia. }
    { intros j Hj. rewrite Hcalls.
      replace (S (infer_calls s) + j)%nat with (infer_calls s + S j)%nat by lia.
      apply Hus. lia. }
    { rewrite Hcalls.
      replace (S (infer_calls s) + k)%nat with (infer_calls s + S k)%nat by lia. exact Hfail. }
    rewrite Hres', Hev, Hev', Hcalls. split; [done |]. reflexivity.
Qed.

(** X7: an exception raised by a call of the inference task is not caught:
    after k passes that went on, the exception of the next pass ends
    [run_scoring] for the image, with that call as its last event; the
    remaining passes are not run and nothing is written. *)
Theorem run_scoring_inference_raises h self image_id simulation_size model_ts s k e :
  let task := infer_task self in
  let image := image_uri s image_id in
  (k < Z.to_nat simulation_size)%nat →
  (∀ j, (j < k)%nat → usable self (infer_call task (infer_calls s + j) image) = true) →
  infer_call task (infer_calls s + k) image = Raise e →
  let o := run_scoring h self image_id simulation_size model_ts s in
  res o = Raise e
  ∧ evs o = loop_events self image_id image (infer_calls s) (seq 0 k) ++ [TInfer image]
  ∧ count_infer (evs o) = S k
  ∧ image_info (st o) = image_info s.
Proof.
  intros task image Hk Hus Hraise. cbn zeta.
  destruct (run_scoring_unfold h self image_id simulation_size model_ts s) as (Hres & Hev).
  destruct (run_scoring_quiet h self image_id simulation_size model_ts s) as (_ & Hinfo & _).
  rewrite Hres, Hev. clear Hres Hev.
  edestruct (scoring_loop_stops self image_id image e k (py_range simulation_size) [] None
               (tick s)) as (Hres & Hev).
  { unfold py_range. rewrite length_seq. exact Hk. }
  { exact Hus. }
  { cbn [infer_calls tick]. fold task. rewrite Hraise. reflexivity. }
  fold image. rewrite Hres, Hev.
  unfold py_range. rewrite take_seq. cbn [infer_calls tick].
  replace (k `min` Z.to_nat simulation_size)%nat with k by lia.
  split_and!; [done | done | | done].
  rewrite count_infer_app, count_infer_loop_events, length_seq. change (count_infer [TInfer image]) with 1%nat. lia.
Qed.

(** X9: the metadata of line 175, once merged into the datastore, against
    the filter of lines 90-92, which reads the fixed key ["epistemic_ts"].
    With the default [key_output_ts] the image is skipped by a later run
    exactly under the tag it was scored with.  With another
    [key_output_ts] (and an entropy key that is not ["epistemic_ts"]
    either) the filter does not see the stamp: what it reads for the image
    is what was there before.  The stamps of the other images are
    untouched. *)
Theorem written_stamp_and_filter self entropy model_ts s image_id :
  let s' := ds_update image_id (scoring_info self entropy model_ts) s in
  (key_output_ts self = "epistemic_ts" →
   stored_ts s' image_id = Some (PInt model_ts)
   ∧ ∀ later_ts, is_skipped s' later_ts image_id = (model_ts =? later_ts))
  ∧ (key_output_ts self ≠ "epistemic_ts" → key_output_entropy self ≠ "epistemic_ts" →
     stored_ts s' image_id = stored_ts s image_id
     ∧ ∀ later_ts, is_skipped s' later_ts image_id = is_skipped s later_ts image_id)
  ∧ (∀ other, other ≠ image_id → stored_ts s' other = stored_ts s other).
Proof.
  cbn zeta. unfold is_skipped, stored_ts, ds_update. cbn [image_info].
  set (info := scoring_info self entropy model_ts).
  set (old := default ∅ (image_info s !! image_id)).
  split_and!.
  - intros Hkey. rewrite lookup_insert_eq. cbn [default]. unfold id.
    assert ((info ∪ old) !! "epistemic_ts" = Some (PInt model_ts)) as ->; [| done].
    apply lookup_union_Some_l. subst info. unfold scoring_info.
    rewrite Hkey. apply lookup_insert_eq.
  - intros Hts Hent. rewrite lookup_insert_eq. cbn [default]. unfold id.
    assert ((info ∪ old) !! "epistemic_ts" = old !! "epistemic_ts") as ->; [| done].
    apply lookup_union_r. subst info. unfold scoring_info. by rewrite !lookup_insert_ne.
  - intros other Hother. by rewrite lookup_insert_ne.
Qed.

End Properties.

(** ** The concrete runs *)

(** C1, at a concrete input: with two predictions in hand [run_scoring]
    ends on the unbound name, and the image has still no metadata. *)
Example run_scoring_name_error :
  let o := run_scoring sample_host (init steady_task) "img1" 2 1 (store_of ["img1"]) in
  res o = Raise (NameError "ground_truth_label")
  ∧ evs o = [TInfer "file://img1"; TLogPred "img1" 0;
             TInfer "file://img1"; TLogPred "img1" 1]
  ∧ image_info (st o) !! "img1" = None.
Proof. vm_compute. done. Qed.

(** C2, where the claim fails: [max_samples = -1] cuts the only kept image
    off the work list, and the wall clock is set back during the run; the
    run returns a summary with 1 image in total, none skipped, none
    executed, and a negative latency. *)
Lemma score_summary_counts_fail :
  let o := score stepping_back_host (init steady_task) (request_max_samples (-1))
             (store_of ["img1"]) in
  ∃ summary, res o = Ok summary
             ∧ total summary = 1 ∧ skipped summary = 0 ∧ executed summary = 0
             ∧ skipped summary + executed summary ≠ total summary
             ∧ (latency summary < 0)%Q.
Proof. cbn zeta. eexists. split; [vm_compute; reflexivity |]. cbn. split_and!; done. Qed.

(** C2, with a per-image routine that returns: 5 images, [max_samples = 2];
    the summary counts 5 in total, 0 skipped, 2 executed. *)
Example score_summary_counts_truncated :
  let o := score_with tagging_routine sample_host (init steady_task) (request_max_samples 2)
             (store_of ["a"; "b"; "c"; "d"; "e"]) in
  ∃ summary, res o = Ok summary
             ∧ total summary = 5 ∧ skipped summary = 0 ∧ executed summary = 2
             ∧ dispatched (evs o) = ["a"; "b"].
Proof. cbn zeta. eexists. split; [vm_compute; reflexivity |]. vm_compute. split_and!; done. Qed.

Lemma score_summary_counts_witness :
  let s := store_of ["a"; "b"; "c"] in
  let self := init steady_task in
  let o := score_with tagging_routine sample_host self empty_request s in
  ∃ summary, res o = Ok summary
    ∧ skipped summary + executed summary = total summary
    ∧ executed summary = 3
    ∧ (0 <= latency summary)%Q.
Proof.
  cbn zeta. eexists.
  refine (let Hok := _ in conj Hok _).
  pose proof (score_summary_counts tagging_routine sample_host (init steady_task)
                empty_request (store_of ["a"; "b"; "c"]) _ Hok)
    as (_ & _ & Hex & _ & Heq & Hlat).
  split_and!.
  - apply Heq. by left.
  - rewrite Hex. by vm_compute.
  - apply Hlat. by vm_compute.
  Unshelve. vm_compute. reflexivity.
Defined.

(** C3, where the claim fails: the model file has modification time 0, so
    the tag is 0; the image has no stored timestamp, is read as 0, and is
    skipped: the run returns with 1 image skipped and none dispatched. *)
Lemma skip_rule_fail :
  let s := store_of ["img1"] in
  let o := score sample_host (init epoch_task) empty_request s in
  stored_ts s "img1" = None
  ∧ model_version_tag sample_host (get_path epoch_task) = 0
  ∧ is_skipped s 0 "img1" = true
  ∧ ∃ summary, res o = Ok summary ∧ skipped summary = 1 ∧ executed summary = 0
               ∧ dispatched (evs o) = [].
Proof.
  cbn zeta. split_and!; [done | done | done |].
  eexists. split; [vm_compute; reflexivity |]. by vm_compute.
Qed.

(** C4, on the fading task with 2 passes: the ensemble is a singleton. *)
Lemma run_scoring_insufficient_ensemble_witness :
  let self := init fading_task in
  let s := store_of ["img1"] in
  let o := run_scoring sample_host self "img1" 2 1 s in
  collected self "file://img1" 0 2 = [[(1 # 2)%Q]]
  ∧ is_raise (ensemble_entropy self [[(1 # 2)%Q]]) = false
  ∧ res o = Raise (NameError "ground_truth_label").
Proof.
  cbn zeta. split; [by vm_compute |]. split; [by vm_compute |].
  refine (eq_trans (proj1 (run_scoring_insufficient_ensemble sample_host (init fading_task)
                             "img1" 2 1 (store_of ["img1"]) _ _)) _).
  - intros [|[|j]] Hj; [by vm_compute | by vm_compute | cbn in Hj; lia].
  - vm_compute. lia.
  - by vm_compute.
Defined.

(** C5, where the claim fails: [max_samples = -1] with two kept images
    puts the first of them on the work list, not the first -1 (none). *)
Lemma work_list_truncation_fail :
  let s := store_of ["a"; "b"] in
  let self := init steady_task in
  let request := request_max_samples (-1) in
  let o := score sample_host self request s in
  requested_max_samples self request = -1
  ∧ eligible s 1 = ["a"; "b"]
  ∧ work_list self request s 1 = ["a"]
  ∧ dispatched (evs o) = ["a"]
  ∧ dispatched (evs o) ≠ take (Z.to_nat (-1)) (eligible s 1).
Proof. cbn zeta. vm_compute. split_and!; done. Qed.

(** C5, the example of the spec on the class's own routine: 5 kept images
    and [max_samples = 2]; the work list has the first two, the first one
    is dispatched and raises, and no summary is returned. *)
Example score_max_samples_2_of_5 :
  let s := store_of ["a"; "b"; "c"; "d"; "e"] in
  let self := init steady_task in
  let request :=
    {| req_max_samples := Some 2; req_simulation_size := None; req_max_workers := Some 1;
       req_multi_gpu := None; req_gpus := None; req_device := None |} in
  let o := score sample_host self request s in
  work_list self request s 1 = ["a"; "b"]
  ∧ res o = Raise (NameError "ground_truth_label")
  ∧ dispatched (evs o) = ["a"].
Proof. cbn zeta. vm_compute. split_and!; done. Qed.

(** C6, on a request with simulation size 0. *)
Lemma simulation_size_floor_witness :
  let request :=
    {| req_max_samples := None; req_simulation_size := Some 0; req_max_workers := None;
       req_multi_gpu := None; req_gpus := None; req_device := None |} in
  let self := init steady_task in
  let o := score sample_host self request (store_of ["a"; "b"]) in
  requested_simulation_size self request < 2
  ∧ length (filter (λ e, is_warning e = true) (evs o)) = 1%nat
  ∧ (∀ e a, e ∈ evs o → run_args e = Some a → a.1 = 2).
Proof.
  cbn zeta.
  refine (let Hlt := _ in conj Hlt _).
  pose proof (simulation_size_floor (run_scoring sample_host (init steady_task)) sample_host
                (init steady_task) _ (store_of ["a"; "b"]) Hlt)
    as (_ & Hone & _ & _ & Hargs).
  split; [exact Hone | exact Hargs].
  Unshelve. by vm_compute.
Defined.

(** C7, at concrete inputs: a model file last modified at 1700.5 gives the
    tag 1700; without model file the tag is 1, and a run over an image
    already tagged 1 skips it and returns. *)
Example model_version_tag_examples :
  let tagged :=
    {| unlabeled := ["img1"]; image_info := {[ "img1" := {[ "epistemic_ts" := PInt 1 ]} ]};
       image_uri := λ i, i; infer_calls := 0; clock_reads := 0 |} in
  let o := score sample_host (init steady_task) empty_request tagged in
  model_version_tag sample_host (Some "deepgrow_3d.pt") = 1700
  ∧ model_version_tag sample_host (Some "missing.pt") = 1
  ∧ model_version_tag sample_host (Some "") = 1
  ∧ model_version_tag sample_host None = 1
  ∧ ∃ summary, res o = Ok summary ∧ total summary = 1 ∧ skipped summary = 1
               ∧ executed summary = 0.
Proof.
  cbn zeta. split_and!; [done | done | done | done |].
  eexists. split; [vm_compute; reflexivity |]. by vm_compute.
Qed.


(** C8, on a run through the pool with the class's own routine: both images
    are dispatched and run to the end, both calls raise, and the run raises
    the exception of the first. *)
Lemma worker_failure_propagation_witness :
  let request :=
    {| req_max_samples := None; req_simulation_size := Some 2; req_max_workers := None;
       req_multi_gpu := None; req_gpus := None; req_device := None |} in
  let self := init steady_task in
  let s := store_of ["a"; "b"] in
  let o := score sample_host self request s in
  ERunScoring "b" 2 1 [TInfer "file://b"; TLogPred "b" 0; TInfer "file://b"; TLogPred "b" 1]
    (Raise (NameError "ground_truth_label")) ∈ evs o
  ∧ uses_pool sample_host self request s 1 = true
  ∧ res o = Raise (NameError "ground_truth_label")
  ∧ dispatched (evs o) = ["a"; "b"].
Proof.
  cbn zeta.
  refine (let Hin := _ in conj Hin _).
  pose proof (worker_failure_propagation _ _ _ _ _ _ _ _ _ _ Hin)
    as ((e' & Hres & Hfirst) & _ & _ & Hpool).
  split_and!.
  - by vm_compute.
  - etrans; [exact Hres |]. f_equal. vm_compute in Hfirst. congruence.
  - etrans; [apply Hpool; by vm_compute | by vm_compute].
  Unshelve. apply (list_elem_of_lookup_2 _ 5%nat). by vm_compute.
Defined.

(** C10, where the claim fails: the task returns a dict, whose entry under
    the output label key is [None]; the iteration is logged as "no
    prediction" and the ensemble is left as it was. *)
Lemma scoring_iteration_none_in_dict :
  let self := init faulty_task in
  let o := scoring_iteration self "img1" "file://img1" 0 [] (store_of ["img1"]) in
  infer_call faulty_task 0 "file://img1" = Ok (PyDict {[ "pred" := None ]})
  ∧ infer_call faulty_task 0 "file://img1" ≠ Ok NotDict
  ∧ res o = Ok ([], None)
  ∧ evs o = [TInfer "file://img1"; TLogPredNone "img1" 0].
Proof. cbn zeta. split_and!; done. Qed.

(** C10, on the faulty task with 2 passes: the first pass is logged as "no
    prediction", the second raises [KeyError] and ends the routine. *)
Lemma run_scoring_missing_label_key_witness :
  let o := run_scoring sample_host (init faulty_task) "img1" 2 1 (store_of ["img1"]) in
  res o = Raise (KeyError "pred")
  ∧ evs o = [TInfer "file://img1"; TLogPredNone "img1" 0; TInfer "file://img1"].
Proof.
  cbn zeta.
  pose proof (run_scoring_missing_label_key sample_host (init faulty_task) "img1" 2 1
                (store_of ["img1"])) as Hthm.
  cbn zeta in Hthm.
  destruct Hthm as (_ & Hthm).
  destruct (Hthm 1%nat {[ "other" := Some [(1 # 2)%Q] ]}) as (Hres & Hev).
  - vm_compute. lia.
  - intros [|j] Hj; [by vm_compute | lia].
  - reflexivity.
  - reflexivity.
  - split; [exact Hres | rewrite Hev; reflexivity].
Defined.

(** X4, on two images and the default request: the run goes through the
    pool, with 2 workers on the 4 CPUs of the host. *)
Lemma pool_bounds_witness :
  let self := init steady_task in
  let s := store_of ["a"; "b"] in
  let o := score sample_host self empty_request s in
  1 ≤ cpu_count sample_host
  ∧ ELogPool false ["cuda"] 2 ∈ evs o
  ∧ 2 ≤ len (work_list self empty_request s 1).
Proof.
  cbn zeta.
  refine (let Hcpu := _ in let Hin := _ in conj Hcpu (conj Hin _)).
  by destruct (pool_bounds _ _ _ _ _ _ _ _ Hcpu Hin) as (_ & _ & _ & _ & Hlen).
  Unshelve.
  - by vm_compute.
  - apply (list_elem_of_lookup_2 _ 3%nat). by vm_compute.
Defined.

(** X5, on a request that names two GPUs and a device against the empty
    request. *)
Lemma device_options_only_logged_witness :
  let self := init steady_task in
  let s := store_of ["a"; "b"] in
  let o1 := score sample_host self empty_request s in
  let o2 := score sample_host self gpu_request s in
  same_work empty_request gpu_request
  ∧ res o1 = res o2
  ∧ evs o1 !! 3%nat = Some (ELogPool false ["cuda"] 2)
  ∧ evs o2 !! 3%nat = Some (ELogPool true ["cuda:0"; "cuda:1"] 2).
Proof.
  cbn zeta.
  refine (let Hsame := _ in conj Hsame _).
  destruct (device_options_only_logged (run_scoring sample_host (init steady_task)) sample_host
              (init steady_task) empty_request gpu_request (store_of ["a"; "b"]) Hsame)
    as (Hres & _).
  split_and!; [exact Hres | by vm_compute | by vm_compute].
  Unshelve. by split_and!.
Defined.

(** X7, on the crashing task with 3 passes: the second call raises. *)
Lemma run_scoring_inference_raises_witness :
  let o := run_scoring sample_host (init crashing_task) "img1" 3 1 (store_of ["img1"]) in
  res o = Raise (OtherError "CUDA out of memory")
  ∧ evs o = [TInfer "file://img1"; TLogPred "img1" 0; TInfer "file://img1"].
Proof.
  cbn zeta.
  pose proof (run_scoring_inference_raises sample_host (init crashing_task) "img1" 3 1
                (store_of ["img1"]) 1 (OtherError "CUDA out of memory")) as Hthm.
  cbn zeta in Hthm.
  destruct Hthm as (Hres & Hev & _).
  - vm_compute. lia.
  - intros [|j] Hj; [by vm_compute | lia].
  - reflexivity.
  - split; [exact Hres | rewrite Hev; reflexivity].
Defined.

(** X8, on three images with one worker: the first call raises, the other
    two images are never dispatched. *)
Lemma sequential_run_stops_at_failure_witness :
  let self := init steady_task in
  let s := store_of ["a"; "b"; "c"] in
  let o := score sample_host self one_worker_request s in
  uses_pool sample_host self one_worker_request s 1 = false
  ∧ res o = Raise (NameError "ground_truth_label")
  ∧ dispatched (evs o) = ["a"]
  ∧ ∃ done_ids image_id rest,
      work_list self one_worker_request s 1 = done_ids ++ image_id :: rest
      ∧ runs (evs o)
        = ((λ i, (i, Ok tt)) <$> done_ids) ++ [(image_id, Raise (NameError "ground_truth_label"))]
      ∧ dispatched (evs o) = done_ids ++ [image_id].
Proof.
  cbn zeta.
  refine (let Hpool := _ in let Hres := _ in
          conj Hpool (conj Hres (conj _
            (sequential_run_stops_at_failure (run_scoring sample_host (init steady_task))
               sample_host (init steady_task) one_worker_request (store_of ["a"; "b"; "c"])
               _ Hpool Hres)))).
  all: try (by vm_compute).
  Unshelve. all: by vm_compute.
Defined.

(** ** The variance reducer on arrays of any shape *)

Lemma Qsum_replicate n x : (Qsum (replicate n x) == inject_Z (Z.of_nat n) * x)%Q.
Proof.
  induction n as [|n IH].
  - cbn. ring.
  - cbn [replicate Qsum foldr]. fold (Qsum (replicate n x)).
    rewrite IH, Nat2Z.inj_succ, <- Z.add_1_r, inject_Z_plus. ring.
Qed.

Lemma Qmean_replicate n x : (0 < n)%nat → (Qmean (replicate n x) == x)%Q.
Proof.
  intros Hn. unfold Qmean, len. rewrite Qsum_replicate, length_replicate.
  field. intros H0. unfold Qeq in H0. cbn in H0. lia.
Qed.

(** The variance of equal values is 0, whatever the thresholding makes of
    them. *)
Lemma Qvariance_replicate n x : (0 < n)%nat → (Qvariance (replicate n x) == 0)%Q.
Proof.
  intros Hn. unfold Qvariance. cbn zeta. rewrite !fmap_replicate.
  rewrite (Qmean_replicate n _ Hn), (Qmean_replicate n _ Hn). ring.
Qed.

Lemma Qsum_proper l l' : Forall2 Qeq l l' → (Qsum l == Qsum l')%Q.
Proof.
  induction 1 as [|x y l l' Hxy _ IH]; [reflexivity |].
  cbn [Qsum foldr]. fold (Qsum l) (Qsum l'). by rewrite Hxy, IH.
Qed.

Lemma Qmean_proper l l' : Forall2 Qeq l l' → (Qmean l == Qmean l')%Q.
Proof.
  intros Hl. unfold Qmean, len.
  by rewrite (Qsum_proper l l' Hl), (Forall2_length _ _ _ Hl).
Qed.

Lemma Qvariance_proper l l' : Forall2 Qeq l l' → (Qvariance l == Qvariance l')%Q.
Proof.
  intros Hl. unfold Qvariance. cbn zeta.
  assert (Forall2 Qeq ((λ x, if Qle_bool x 0 then (5 # 10000)%Q else x) <$> l)
                      ((λ x, if Qle_bool x 0 then (5 # 10000)%Q else x) <$> l')) as Hth.
  { apply Forall2_fmap. eapply Forall2_impl; [exact Hl |].
    intros x y Hxy. cbn. rewrite (Qleb_comp x y Hxy 0%Q 0%Q (Qeq_refl 0)).
    by destruct (Qle_bool y 0). }
  apply Qmean_proper, Forall2_fmap. eapply Forall2_impl; [exact Hth |].
  intros x y Hxy. cbn. by rewrite Hxy, (Qmean_proper _ _ Hth).
Qed.

Lemma nth_proper (l l' : list Q) k : Forall2 Qeq l l' → (nth k l 0 == nth k l' 0)%Q.
Proof.
  intros Hl. revert k. induction Hl as [|x y l l' Hxy _ IH]; intros [|k]; cbn; try done.
Qed.

Lemma across_trials_proper m n data data' j :
  Forall2 Qeq data data' →
  Forall2 Qeq (across_trials m n data j) (across_trials m n data' j).
Proof.
  intros Hd. unfold across_trials. apply Forall2_fmap, Forall_Forall2_diag, Forall_forall.
  intros t _. by apply nth_proper.
Qed.

Lemma nth_concat_replicate n (d : list Q) t j :
  (t < n)%nat → (j < length d)%nat →
  nth (t * length d + j) (concat (replicate n d)) 0%Q = nth j d 0%Q.
Proof.
  revert t. induction n as [|n IH]; intros t Ht Hj; [lia |].
  cbn [replicate concat]. destruct t as [|t].
  - cbn [Nat.mul Nat.add]. by rewrite app_nth1.
  - rewrite app_nth2 by (cbn; lia).
    replace (S t * length d + j - length d)%nat with (t * length d + j)%nat by (cbn; lia).
    apply IH; lia.
Qed.

Lemma across_trials_identical n (d : list Q) j :
  (j < length d)%nat →
  across_trials (length d) n (concat (replicate n d)) j = replicate n (nth j d 0%Q).
Proof.
  intros Hj. unfold across_trials.
  trans (replicate (length (seq 0 n)) (nth j d 0%Q)); [| by rewrite length_seq].
  apply const_fmap.
  intros i t Hi. apply lookup_seq in Hi as [-> Hlt]. cbn [Nat.add].
  by apply nth_concat_replicate.
Qed.

Lemma chunks_identical n (d : list Q) :
  chunks (length d) n (concat (replicate n d)) = replicate n d.
Proof.
  induction n as [|n IH]; [done |].
  cbn [replicate concat chunks]. by rewrite take_app_length, drop_app_length, IH.
Qed.

Lemma shape_size_squeeze shape :
  shape_size (filter (λ k, k ≠ 1%nat) shape) = shape_size shape.
Proof.
  induction shape as [|k shape IH]; [done |].
  destruct (decide (k = 1%nat)) as [-> | Hk].
  - rewrite filter_cons_False by (intros Hne; by apply Hne).
    cbn [shape_size foldr]. fold (shape_size shape). lia.
  - rewrite filter_cons_True by done.
    cbn [shape_size foldr]. fold (shape_size shape).
    fold (shape_size (filter (λ k, k ≠ 1%nat) shape)). by rewrite IH.
Qed.

Lemma stack_identical n member :
  (0 < n)%nat → np_stack (replicate n member) = Ok (identical_members n member).
Proof.
  intros Hn. destruct n as [|n]; [lia |].
  unfold np_stack. cbn [replicate]. change (member :: replicate n member)
    with (replicate (S n) member).
  cbn [stack_arrays ndarray_numerics]. unfold stack_ndarrays.
  change (replicate (S n) member) with (member :: replicate n member) at 1.
  cbn beta iota.
  assert (forallb (λ a, bool_decide (arr_shape a = arr_shape member)) (replicate (S n) member)
          = true) as ->.
  { apply forallb_forall. intros a Ha%list_elem_of_In%elem_of_replicate_inv. subst a.
    by apply bool_decide_eq_true_2. }
  by rewrite length_replicate, fmap_replicate.
Qed.

Lemma squeeze_identical n member :
  n ≠ 1%nat → squeeze (identical_members n member) = identical_members n (squeeze member).
Proof.
  intros Hn. unfold squeeze, identical_members. cbn [arr_shape arr_data].
  by rewrite filter_cons_True by done.
Qed.

Lemma drop_channel_identical n member :
  well_shaped member → arr_shape member ≠ [] →
  drop_channel (identical_members n member) = identical_members n (drop_first_channel member).
Proof.
  unfold well_shaped, drop_channel, drop_first_channel, identical_members.
  destruct member as [[|c shape] d]; cbn [arr_shape arr_data]; [done |].
  intros Hlen _. cbn [shape_size foldr] in Hlen. fold (shape_size shape) in Hlen.
  rewrite <- Hlen, chunks_identical. by rewrite fmap_replicate.
Qed.

Lemma well_shaped_squeeze member : well_shaped member → well_shaped (squeeze member).
Proof.
  unfold well_shaped, squeeze. cbn [arr_shape arr_data]. intros ->.
  by rewrite shape_size_squeeze.
Qed.

Lemma well_shaped_drop_first_channel member :
  well_shaped member → well_shaped (drop_first_channel member).
Proof.
  unfold well_shaped, drop_first_channel.
  destruct member as [[|c shape] d]; cbn [arr_shape arr_data]; [done |].
  cbn [shape_size foldr]. fold (shape_size shape). intros Hlen.
  rewrite length_drop, Hlen. nia.
Qed.

Lemma well_shaped_reduced_member self member :
  well_shaped member → well_shaped (reduced_member self member).
Proof.
  intros Hm. unfold reduced_member. cbn zeta.
  repeat case_match; auto using well_shaped_squeeze, well_shaped_drop_first_channel.
Qed.

(** The variance map of an ensemble of identical members has the shape of
    one member and is 0 everywhere. *)
Lemma variance_map_identical n member :
  (0 < n)%nat → well_shaped member →
  ∃ out, variance_map (identical_members n member) = Ok out
         ∧ arr_shape out = arr_shape member
         ∧ length (arr_data out) = length (arr_data member)
         ∧ Forall (λ v, v == 0)%Q (arr_data out).
Proof.
  intros Hn Hshape. unfold variance_map, identical_members. cbn [arr_shape arr_data].
  eexists. split; [reflexivity |]. cbn [arr_shape arr_data].
  rewrite <- Hshape. split_and!; [done | by rewrite length_fmap, length_seq |].
  apply Forall_fmap, Forall_forall. intros j Hj%elem_of_seq. cbn.
  rewrite across_trials_identical by lia. by apply Qvariance_replicate.
Qed.

Lemma shape_size_batch (dim : Z) shape :
  shape_size ((if dim =? 3 then [1; 1]%nat else []) ++ shape) = shape_size shape.
Proof. unfold shape_size. destruct (dim =? 3); cbn [app foldr]; lia. Qed.

Lemma variance_volume_identical self n member :
  (0 < n)%nat → well_shaped member →
  ∃ out, variance_volume self (identical_members n member) = Ok out
         ∧ arr_shape out
           = (if dimension self =? 3 then [1; 1]%nat else []) ++ arr_shape member
         ∧ length (arr_data out) = length (arr_data member)
         ∧ Forall (λ v, v == 0)%Q (arr_data out).
Proof.
  intros Hn Hshape.
  destruct (variance_map_identical n member Hn Hshape) as (out & Hout & Hs & Hlen & Hzero).
  unfold variance_volume. cbn [astype_float32 variance_metric expand_dims0 ndarray_numerics].
  rewrite Hout. eexists. split; [reflexivity |].
  destruct (dimension self =? 3); cbn [arr_shape arr_data app]; by rewrite ?Hs.
Qed.

Lemma Qmean_zero l : Forall (λ v, v == 0)%Q l → (Qmean l == 0)%Q.
Proof.
  intros Hl. unfold Qmean.
  assert (Qsum l == 0)%Q as ->; [| unfold Qdiv; ring].
  induction Hl as [|x l Hx _ IH]; [reflexivity |].
  cbn [Qsum foldr]. fold (Qsum l). rewrite Hx, IH. ring.
Qed.

(** Lines 150-158 on the predictions of passes that all return the same
    volume: the reducer receives an ensemble of identical members, and the
    scalar entropy is 0 ([nan] when nothing is left of the volume). *)
Lemma ensemble_entropy_identical self n member :
  (2 ≤ n)%nat → well_shaped member →
  ∃ q, (q == 0)%Q
       ∧ ensemble_entropy self (replicate n member)
         = Ok (match arr_data (reduced_member self member) with
               | [] => FNaN
               | _ => FNum q
               end).
Proof.
  intros Hn Hshape. unfold ensemble_entropy.
  rewrite stack_identical by lia. cbn zeta.
  cbn [np_squeeze ndim drop_background ndarray_numerics].
  rewrite squeeze_identical by lia.
  assert ((if dimension self =? 3
           then if (4 <? length (arr_shape (identical_members n (squeeze member))))%nat
                then drop_channel (identical_members n (squeeze member))
                else identical_members n (squeeze member)
           else if (3 <? length (arr_shape (identical_members n (squeeze member))))%nat
                then drop_channel (identical_members n (squeeze member))
                else identical_members n (squeeze member))
          = identical_members n (reduced_member self member)) as ->.
  { unfold reduced_member. cbn zeta. cbn [identical_members arr_shape length].
    fold (identical_members n (squeeze member)).
    pose proof (well_shaped_squeeze member Hshape) as Hsq.
    destruct (dimension self =? 3).
    - destruct (4 <? _)%nat eqn:Hrank; [| done].
      apply drop_channel_identical; [done |].
      intros Hnil. rewrite Hnil in Hrank. done.
    - destruct (3 <? _)%nat eqn:Hrank; [| done].
      apply drop_channel_identical; [done |].
      intros Hnil. rewrite Hnil in Hrank. done. }
  pose proof (well_shaped_reduced_member self member Hshape) as Hred.
  destruct (variance_volume_identical self n (reduced_member self member))
    as (out & -> & _ & Hlen & Hzero); [lia | done |].
  exists (Qmean (arr_data out)). split; [by apply Qmean_zero |].
  cbn [nanmean ndarray_numerics].
  destruct (arr_data out), (arr_data (reduced_member self member)); done.
Qed.

(** The reducer gives the same numbers on the same numbers. *)
Lemma variance_map_proper a b :
  same_array a b → same_result (variance_map a) (variance_map b).
Proof.
  intros (Hs & Hd). unfold variance_map. rewrite <- Hs.
  destruct (arr_shape a) as [|n shape]; [done |].
  split; [done |]. cbn [arr_data].
  apply Forall2_fmap, Forall_Forall2_diag, Forall_forall. intros j _.
  by apply Qvariance_proper, across_trials_proper.
Qed.

(** C9: over the variance metric of section 4.1 of the specification, the
    variance reducer returns, for an ensemble of at least 2 members that
    are all identical, a map of the shape of one member (behind two axes of
    length 1 for a 3-D task) whose every element is 0, and so within the
    threshold 0.0005; [np.stack] of the identical predictions is such an
    ensemble, and the scalar entropy that lines 150-158 of [run_scoring]
    draw from them is 0.  The reducer is deterministic: on ensembles that
    hold the same numbers, two invocations, by instances of the same
    dimension, both raise the same exception or return maps that hold the
    same numbers. *)
Theorem variance_volume_identical_members self :
  (∀ n member, (2 ≤ n)%nat → well_shaped member →
     np_stack (replicate n member) = Ok (identical_members n member)
     ∧ ∃ out, variance_volume self (identical_members n member) = Ok out
              ∧ arr_shape out
                = (if dimension self =? 3 then [1; 1]%nat else []) ++ arr_shape member
              ∧ well_shaped out
              ∧ Forall (λ v, v == 0 ∧ Qabs v <= 5 # 10000)%Q (arr_data out))
  ∧ (∀ n member, (2 ≤ n)%nat → well_shaped member →
       ∃ q, (q == 0)%Q
            ∧ ensemble_entropy self (replicate n member)
              = Ok (match arr_data (reduced_member self member) with
                    | [] => FNaN
                    | _ => FNum q
                    end))
  ∧ (∀ self' a b, dimension self' = dimension self → same_array a b →
       same_result (variance_volume self a) (variance_volume self' b)).
Proof.
  split_and!.
  - intros n member Hn Hshape. split; [apply stack_identical; lia |].
    destruct (variance_volume_identical self n member)
      as (out & Hout & Hs & Hlen & Hzero); [lia | done |].
    exists out. split_and!; [done | done | |].
    + unfold well_shaped. by rewrite Hs, shape_size_batch, Hlen.
    + eapply Forall_impl; [exact Hzero |]. intros v Hv. cbn in Hv |- *.
      split; [done |]. by rewrite Hv.
  - apply ensemble_entropy_identical.
  - intros self' a b Hdim Hab.
    pose proof (variance_map_proper a b Hab) as Hmap.
    unfold variance_volume.
    cbn [astype_float32 variance_metric expand_dims0 ndarray_numerics].
    rewrite Hdim.
    destruct (variance_map a) as [va | e], (variance_map b) as [vb | e']; try done.
    destruct Hmap as (Hs & Hd). destruct (dimension self =? 3); split; cbn; by rewrite ?Hs.
Qed.

(** C9, on three copies of a volume of two channels. *)
Lemma variance_volume_identical_members_witness :
  ∃ out, variance_volume (init volume_task) (identical_members 3 two_channel_volume) = Ok out
         ∧ arr_shape out = [1; 1; 2; 1; 1; 2]%nat
         ∧ Forall (λ v, v == 0 ∧ Qabs v <= 5 # 10000)%Q (arr_data out).
Proof.
  destruct (variance_volume_identical_members (init volume_task)) as (Hzero & _ & _).
  destruct (Hzero 3%nat two_channel_volume) as (_ & out & Hout & Hs & _ & Hall);
    [lia | reflexivity |].
  exists out. split_and!; [exact Hout | exact Hs | exact Hall].
Defined.

(** The metric tells members apart: for two members [1; 2] and [3; 5] the
    map holds the variances 1 and 9/4. *)
Example variance_volume_distinct_members :
  ∃ out, variance_volume (init volume_task)
           {| arr_shape := [2; 2]%nat; arr_data := [1; 2; 3; 5]%Q |} = Ok out
         ∧ arr_shape out = [1; 1; 2]%nat
         ∧ Forall2 Qeq (arr_data out) [1; 9 # 4]%Q.
Proof. eexists. split_and!; [reflexivity | reflexivity |]. by repeat constructor. Qed.

(** The thresholding: values that are not positive count as 0.0005, so that
    members that differ in such values only have variance 0 as well. *)
Example variance_volume_thresholded_members :
  ∃ out, variance_volume (init volume_task)
           {| arr_shape := [2; 2]%nat; arr_data := [-1; 1 # 2; 0; 1 # 2]%Q |} = Ok out
         ∧ Forall2 Qeq (arr_data out) [0; 0]%Q.
Proof. eexists. split; [reflexivity |]. by repeat constructor. Qed.

(** * Properties of the deepgrow sample application *)

Module DeepgrowProperties.

Import Deepgrow.

Local Arguments path_join : simpl never.
Local Arguments String.append : simpl never.

Section Train.

Context {R : Type}.
Variable run_task : TrainDeepgrow → Z → bool → result R.

Lemma wbind_inr {A B} (m : W (R := R) A) (k : A → W (R := R) B) a :
  m.2 = inr a → wbind m k = (m.1 ++ (k a).1, (k a).2).
Proof. intros Hm. unfold wbind. by rewrite Hm. Qed.

Lemma wbind_inl {A B} (m : W (R := R) A) (k : A → W (R := R) B) e :
  m.2 = inl e → wbind m k = (m.1, inl e).
Proof. intros Hm. unfold wbind. by rewrite Hm. Qed.

(** What [create_task] makes of the two deepgrow models. *)
Lemma create_task_deepgrow app_dir studies datalist h request model :
  model = "deepgrow_2d" ∨ model = "deepgrow_3d" →
  let self := new app_dir studies datalist in
  let out := create_task (R := R) self h request model in
  ∃ task,
    out.2 = inr task
    ∧ tasks_run out.1 = []
    ∧ dimension task = (if String.eqb model "deepgrow_2d" then 2 else 3)
    ∧ matches_infer self h request task.
Proof.
  intros Hmodel. cbn zeta. unfold matches_infer.
  destruct Hmodel as [-> | ->]; unfold create_task, new, wbind; cbn;
    destruct (file_exists h _) eqn:Hex; cbn; rewrite ?Hex;
    eexists; (split_and!; [reflexivity | reflexivity | reflexivity |]).
  all: eexists _, _, _; split_and!; try reflexivity; eauto; cbn; by rewrite Hex.
Qed.

(** What it makes of any other model: a missing key, or for the spleen
    entry, which has a single path, a missing index. *)
Lemma create_task_other app_dir studies datalist h request model :
  model ≠ "deepgrow_2d" → model ≠ "deepgrow_3d" →
  let out := create_task (R := R) (new app_dir studies datalist) h request model in
  out.2 = inl (if String.eqb model "segmentation_spleen" then AppIndexError
               else AppKeyError model)
  ∧ tasks_run out.1 = [].
Proof.
  intros H2 H3. cbn zeta. unfold create_task, new. cbn [data model_data dict_get].
  rewrite (String.eqb_sym "deepgrow_2d"), (String.eqb_sym "deepgrow_3d"),
    (String.eqb_sym "segmentation_spleen").
  destruct (String.eqb_spec model "deepgrow_2d") as [|_]; [done |].
  destruct (String.eqb_spec model "deepgrow_3d") as [|_]; [done |].
  destruct (String.eqb_spec model "segmentation_spleen") as [-> |_].
  - unfold wbind. cbn. destruct (file_exists h _); done.
  - done.
Qed.

Lemma run_tasks_spec request tasks :
  ∀ result, let out := run_tasks run_task request tasks result in
  tasks_run out.1 `prefix_of` tasks
  ∧ is_not_found out.2 = false.
Proof.
  induction tasks as [|task tasks IH]; intros result; cbn zeta.
  - cbn. split; [done | done].
  - cbn [run_tasks]. unfold wbind. cbn [log fst snd].
    destruct (run_task task _ _) as [r|e]; cbn [wraise fst snd app].
    + destruct (IH (Some r)) as (Hpre & Hnf). split; [| done].
      change (tasks_run (?e :: ?l)) with (task :: tasks_run l). by apply prefix_cons.
    + split; [| done]. apply prefix_cons, prefix_nil.
Qed.

Lemma tasks_run_app (l1 l2 : list (train_event (R := R))) :
  tasks_run (l1 ++ l2) = tasks_run l1 ++ tasks_run l2.
Proof. apply omap_app. Qed.

Lemma train_unfold self h request :
  let model := default "deepgrow_2d" (tr_model request) in
  let models := if String.eqb model "all" then ["deepgrow_2d"; "deepgrow_3d"] else [model] in
  let c := create_tasks (R := R) self h request models [] in
  train run_task self h request =
  match c.2 with
  | inr tasks =>
      let r := run_tasks run_task request tasks None in
      (LogRequest request :: LogSelected models :: c.1 ++ LogTotal (length tasks) :: r.1, r.2)
  | inl e => (LogRequest request :: LogSelected models :: c.1, inl e)
  end.
Proof.
  cbn zeta. unfold train, wbind. cbn [log fst snd app].
  destruct (create_tasks _ _ _ _ _) as [l [e|tasks]]; cbn [fst snd app]; done.
Qed.

(** The task creation of a request for one model that is not a deepgrow
    model. *)
Lemma create_tasks_other app_dir studies datalist h request model :
  model ≠ "deepgrow_2d" → model ≠ "deepgrow_3d" →
  let c := create_tasks (R := R) (new app_dir studies datalist) h request [model] [] in
  c.2 = inl (if String.eqb model "segmentation_spleen" then AppIndexError
             else AppKeyError model)
  ∧ tasks_run c.1 = [].
Proof.
  intros H2 H3. cbn zeta. cbn [create_tasks].
  destruct (create_task_other app_dir studies datalist h request model H2 H3) as (Hres & Hev).
  by rewrite (wbind_inl _ _ _ Hres).
Qed.

Lemma create_tasks_one app_dir studies datalist h request model :
  model = "deepgrow_2d" ∨ model = "deepgrow_3d" →
  let self := new app_dir studies datalist in
  let c := create_tasks (R := R) self h request [model] [] in
  ∃ task, c.2 = inr [task] ∧ tasks_run c.1 = []
          ∧ dimension task = (if String.eqb model "deepgrow_2d" then 2 else 3)
          ∧ matches_infer self h request task.
Proof.
  intros Hmodel. cbn zeta. cbn [create_tasks].
  destruct (create_task_deepgrow app_dir studies datalist h request model Hmodel)
    as (task & Hres & Hev & Hdim & Hmatch).
  exists task. rewrite (wbind_inr _ _ _ Hres). cbn [wret fst snd app].
  by rewrite app_nil_r.
Qed.

Lemma create_tasks_all app_dir studies datalist h request :
  let self := new app_dir studies datalist in
  let c := create_tasks (R := R) self h request ["deepgrow_2d"; "deepgrow_3d"] [] in
  ∃ task2 task3, c.2 = inr [task2; task3] ∧ tasks_run c.1 = []
                 ∧ dimension task2 = 2 ∧ dimension task3 = 3
                 ∧ matches_infer self h request task2
                 ∧ matches_infer self h request task3.
Proof.
  cbn zeta. cbn [create_tasks].
  destruct (create_task_deepgrow app_dir studies datalist h request "deepgrow_2d"
              ltac:(by left)) as (task2 & Hres2 & Hev2 & Hdim2 & Hmatch2).
  destruct (create_task_deepgrow app_dir studies datalist h request "deepgrow_3d"
              ltac:(by right)) as (task3 & Hres3 & Hev3 & Hdim3 & Hmatch3).
  exists task2, task3. rewrite (wbind_inr _ _ _ Hres2). cbn [fst snd app].
  rewrite (wbind_inr _ _ _ Hres3). cbn [wret fst snd app].
  by rewrite app_nil_r, tasks_run_app, Hev2, Hev3.
Qed.

(** X10: a request to train a model other than the two deepgrow models
    (or "all") fails while the task is being set up, before any training
    runs: with the [KeyError] of the table lookup of line 92, or, for
    "segmentation_spleen", whose entry has a single path, with the
    [IndexError] of line 100. *)
Theorem train_rejects_other_models app_dir studies datalist h request model :
  default "deepgrow_2d" (tr_model request) = model →
  model ≠ "all" → model ≠ "deepgrow_2d" → model ≠ "deepgrow_3d" →
  let out := train run_task (new app_dir studies datalist) h request in
  out.2 = inl (if String.eqb model "segmentation_spleen" then AppIndexError
               else AppKeyError model)
  ∧ tasks_run out.1 = [].
Proof.
  intros Hmodel Hall H2 H3. cbn zeta. rewrite train_unfold. cbn zeta. rewrite Hmodel.
  destruct (String.eqb_spec model "all") as [|_]; [done |].
  destruct (create_tasks_other app_dir studies datalist h request model H2 H3) as (Hres & Hev).
  by rewrite Hres.
Qed.

(** X11: [train] never raises the exception of line 136, "Train Definition
    for ... Not Found", whatever the request: every model name that reaches
    the [else] branch has failed on line 92 or line 100 before. *)
Theorem train_not_found_unreachable app_dir studies datalist h request :
  is_not_found (train run_task (new app_dir studies datalist) h request).2 = false.
Proof.
  rewrite train_unfold. cbn zeta.
  set (model := default "deepgrow_2d" (tr_model request)).
  destruct (String.eqb_spec model "all") as [Hall | Hall].
  - destruct (create_tasks_all app_dir studies datalist h request)
      as (task2 & task3 & Hres & _). rewrite Hres. cbn zeta. cbn [snd].
    apply run_tasks_spec.
  - destruct (decide (model = "deepgrow_2d")) as [H2 | H2];
      [| destruct (decide (model = "deepgrow_3d")) as [H3 | H3]].
    + destruct (create_tasks_one app_dir studies datalist h request model ltac:(auto))
        as (task & Hres & _).
      cbn zeta in Hres. rewrite Hres. cbn zeta. cbn [snd]. apply run_tasks_spec.
    + destruct (create_tasks_one app_dir studies datalist h request model ltac:(auto))
        as (task & Hres & _).
      cbn zeta in Hres. rewrite Hres. cbn zeta. cbn [snd]. apply run_tasks_spec.
    + destruct (create_tasks_other app_dir studies datalist h request model H2 H3)
        as (Hres & _).
      cbn zeta in Hres. rewrite Hres. cbn [snd]. by destruct (String.eqb _ _).
Qed.

(** X12: a request for "all" sets up the 2D task, then the 3D task, and
    runs them in that order; the result of the 2D run is dropped and [train]
    returns the result of the 3D run; when the 2D run raises, its exception
    is the outcome and the 3D task is not run. *)
Theorem train_all app_dir studies datalist h request :
  tr_model request = Some "all" →
  let self := new app_dir studies datalist in
  let out := train run_task self h request in
  let max_epochs := default 1 (tr_epochs request) in
  let amp := default true (tr_amp request) in
  ∃ task2 task3,
    dimension task2 = 2 ∧ dimension task3 = 3
    ∧ match run_task task2 max_epochs amp with
      | Ok _ =>
          tasks_run out.1 = [task2; task3]
          ∧ out.2 = match run_task task3 max_epochs amp with
                    | Ok r => inr (Some r)
                    | Raise e => inl (TaskError e)
                    end
      | Raise e => tasks_run out.1 = [task2] ∧ out.2 = inl (TaskError e)
      end.
Proof.
  intros Hmodel. cbn zeta. rewrite train_unfold. cbn zeta. rewrite Hmodel. cbn [default].
  unfold id. change (String.eqb "all" "all") with true. cbn iota.
  destruct (create_tasks_all app_dir studies datalist h request)
    as (task2 & task3 & Hres & Hev & Hdim2 & Hdim3 & _).
  exists task2, task3. rewrite Hres. cbn zeta. cbn [fst snd].
  split; [done |]. split; [done |].
  change (tasks_run (LogRequest ?r :: LogSelected ?m :: ?l)) with (tasks_run l).
  rewrite tasks_run_app, Hev. cbn [app].
  change (tasks_run (LogTotal ?n :: ?l)) with (tasks_run l).
  cbn [run_tasks]. unfold wbind. cbn [log fst snd app].
  destruct (run_task task2 _ _) as [r2|e2]; cbn [wraise fst snd app]; [| done].
  destruct (run_task task3 _ _) as [r3|e3]; cbn [wret wraise fst snd app]; done.
Qed.

(** X13: every training task [train] runs matches the infer task that
    [__init__] registered for its model: same dimension, network and model
    size; its publish path is the second path of the infer task (what
    training publishes is a file inference looks for); and it starts from
    the checkpoint of an earlier run of the same name if that file exists,
    from the first path of the infer task otherwise. *)
Theorem train_tasks_match_infer app_dir studies datalist h request :
  let self := new app_dir studies datalist in
  let out := train run_task self h request in
  Forall (matches_infer self h request) (tasks_run out.1).
Proof.
  cbn zeta. rewrite train_unfold. cbn zeta.
  set (model := default "deepgrow_2d" (tr_model request)).
  assert (∀ c tasks (models : list string),
            tasks_run c = [] → Forall (matches_infer (new app_dir studies datalist) h request) tasks →
            Forall (matches_infer (new app_dir studies datalist) h request)
              (tasks_run (LogRequest request :: LogSelected models :: c
                          ++ LogTotal (length tasks)
                             :: (run_tasks run_task request tasks None).1))) as Hrun.
  { intros c tasks models Hc Htasks.
    change (tasks_run (LogRequest ?r :: LogSelected ?m :: ?l)) with (tasks_run l).
    rewrite tasks_run_app, Hc. cbn [app].
    change (tasks_run (LogTotal ?n :: ?l)) with (tasks_run l).
    destruct (run_tasks_spec request tasks None) as ((rest & Hpre) & _).
    rewrite Hpre in Htasks. by apply Forall_app in Htasks as (? & _). }
  destruct (String.eqb_spec model "all") as [Hall | Hall].
  - destruct (create_tasks_all app_dir studies datalist h request)
      as (task2 & task3 & Hres & Hev & _ & _ & Hm2 & Hm3). rewrite Hres. cbn zeta. cbn [fst].
    apply Hrun; [done |]. by repeat constructor.
  - destruct (decide (model = "deepgrow_2d")) as [H2 | H2];
      [| destruct (decide (model = "deepgrow_3d")) as [H3 | H3]].
    1,2: destruct (create_tasks_one app_dir studies datalist h request model ltac:(auto))
           as (task & Hres & Hev & _ & Hm); rewrite Hres; cbn zeta; cbn [fst];
         (apply Hrun; [done |]); by repeat constructor.
    destruct (create_tasks_other app_dir studies datalist h request model H2 H3)
      as (Hres & Hev). rewrite Hres. cbn [fst].
    change (tasks_run (LogRequest ?r :: LogSelected ?m :: ?l)) with (tasks_run l).
    rewrite Hev. constructor.
Qed.

End Train.

(** X10, on the spleen model and on a model the table does not have. *)
Lemma train_rejects_other_models_witness :
  let self := new "/apps/deepgrow" "/data" [] in
  (train sample_run self sample_host (request_for "segmentation_spleen")).2 = inl AppIndexError
  ∧ (train sample_run self sample_host (request_for "unet")).2 = inl (AppKeyError "unet").
Proof.
  cbn zeta. split.
  - by destruct (train_rejects_other_models sample_run "/apps/deepgrow" "/data" [] sample_host
                   (request_for "segmentation_spleen") "segmentation_spleen"
                   eq_refl ltac:(done) ltac:(done) ltac:(done)) as (Hres & _).
  - by destruct (train_rejects_other_models sample_run "/apps/deepgrow" "/data" [] sample_host
                   (request_for "unet") "unet"
                   eq_refl ltac:(done) ltac:(done) ltac:(done)) as (Hres & _).
Defined.

(** X12, with the sample run: two tasks run, and the result is the one of
    the 3D task. *)
Lemma train_all_witness :
  let out := train sample_run (new "/apps/deepgrow" "/data" []) sample_host (request_for "all") in
  out.2 = inr (Some 3) ∧ length (tasks_run out.1) = 2%nat.
Proof.
  cbn zeta.
  destruct (train_all sample_run "/apps/deepgrow" "/data" [] sample_host (request_for "all")
              eq_refl) as (task2 & task3 & Hd2 & Hd3 & Hrun & Hres).
  split.
  - rewrite Hres. unfold sample_run. rewrite Hd3. reflexivity.
  - by rewrite Hrun.
Defined.

(** The default request, at a concrete application directory: the 2D
    model is trained for one epoch from the base checkpoint and published
    beside it. *)
Example train_default_request :
  let request :=
    {| tr_model := None; tr_name := None; tr_device := None; tr_lr := None;
       tr_val_split := None; tr_epochs := None; tr_amp := None |} in
  let out := train sample_run (new "/apps/deepgrow" "/data" []) sample_host request in
  out.2 = inr (Some 2)
  ∧ (λ t, (dimension t, output_dir t, load_path t, publish_path t)) <$> tasks_run out.1
    = [(2, "/apps/deepgrow/model/deepgrow_2d_model_01",
        "/apps/deepgrow/model/deepgrow_2d.pt",
        "/apps/deepgrow/model/deepgrow_2d_final.pt")].
Proof. cbn zeta. by vm_compute. Qed.

End DeepgrowProperties.
